(** * AutoNewsGPT: a shallow embedding of [auto_gen_news.py]

    The script fetches headlines for three buckets, rewrites each article
    with a text service, downloads the article image to a temporary file,
    uploads it to the blog's media library and publishes a post.

    The embedding follows the source function by function.  Python values
    that come out of JSON are kept dynamically typed ([pyval]); the external
    collaborators (news API, text service, image hosts, blog platform, disk)
    are oracles whose answers may depend on everything that happened before;
    the file system and the sequence of calls are threaded as explicit
    state.

    A [print] writes to standard output, which is UTF-8 with the strict
    error handler (Python's default): the text it writes is not kept, but
    a text that holds a lone surrogate cannot be encoded and makes [print]
    raise [UnicodeEncodeError].  The prints of a title, a URL, a file name
    or a value of a response are modelled for that reason; the prints of a
    fixed text, a length, a status code, the text of a response (decoded
    with replacement, so free of surrogates) or the message of an exception
    of a library are not, and neither is the print of the path on line
    195: [main] passes the name of a file that [download_image] has just
    written and printed, so the line is reached through a direct call
    only.

    Left out as well: the texts of the requests (query parameters, prompt,
    headers, payloads), which are functions of the arguments the oracles
    receive and cannot fail to be built; the start-up check of the three
    secrets.  The directory of the script is its own: files appear and
    disappear through the script only, a file that exists can be read and
    removed, and only writing can fail. *)

From Stdlib Require Import PrimFloat Ascii.
From stdpp Require Import gmap strings list pretty.
From Equations Require Import Equations.

Open Scope N_scope.
#[local] Set Warnings "-register-all".

(** ** Strings

    A Python [str] is a sequence of Unicode code points.  The title pattern
    mentions U+2013 and U+2014, so bytes would not do. *)

Abbreviation pystr := (list N).

Fixpoint lit (s : string) : pystr :=
  match s with
  | EmptyString => []
  | String a s' => N_of_ascii a :: lit s'
  end.

Arguments lit : simpl never.

Definition LF : N := 10.
Definition HYPHEN : N := 45.
Definition EN_DASH : N := 8211.
Definition EM_DASH : N := 8212.

(** ** The title pattern [\s[-–—]\s.*$] and [re.sub]

    [\s] on a [str] pattern is [Py_UNICODE_ISSPACE]: U+0009..000D,
    U+001C..0020, U+0085, U+00A0, U+1680, U+2000..200A, U+2028, U+2029,
    U+202F, U+205F, U+3000. *)
Definition is_space (c : N) : bool :=
  ((9 <=? c) && (c <=? 13)) || ((28 <=? c) && (c <=? 32))
  || (c =? 133) || (c =? 160) || (c =? 5760)
  || ((8192 <=? c) && (c <=? 8202))
  || (c =? 8232) || (c =? 8233) || (c =? 8239) || (c =? 8287) || (c =? 12288).

(** The class [[-–—]]. *)
Definition is_dash (c : N) : bool :=
  (c =? HYPHEN) || (c =? EN_DASH) || (c =? EM_DASH).

(** [$] without [re.MULTILINE]: the end of the string, or just before a
    line feed that is the last character. *)
Definition at_eol (s : pystr) : bool :=
  match s with
  | [] => true
  | [c] => c =? LF
  | _ => false
  end.

(** [.*$] at the front of [s]: the number of characters [.*] takes, greedy
    with backtracking; [.] is every character but the line feed. *)
Fixpoint dotstar_eol (s : pystr) : option nat :=
  match s with
  | [] => Some 0%nat
  | c :: s' =>
      if c =? LF then (if at_eol s then Some 0%nat else None)
      else match dotstar_eol s' with
           | Some k => Some (S k)
           | None => if at_eol s then Some 0%nat else None
           end
  end.

(** The fixed-width head of the pattern, [\s[-–—]\s]. *)
Definition sep3 (s : pystr) : bool :=
  match s with
  | c1 :: c2 :: c3 :: _ => is_space c1 && is_dash c2 && is_space c3
  | _ => false
  end.
Arguments sep3 : simpl never.

(** The whole pattern anchored at the front of [s]: the length of the
    match. *)
Definition match_len (s : pystr) : option nat :=
  if sep3 s then (fun k => 3 + k)%nat <$> dotstar_eol (drop 3 s) else None.

(** [re.sub(pattern, '', s)]: scan left to right; at a match drop it and go
    on behind it, otherwise keep the character and move one on.  (A match of
    this pattern is never empty.) *)
Equations? re_sub (s : pystr) : pystr by wf (length s) lt :=
  re_sub [] := [];
  re_sub (c :: s') with match_len (c :: s') := {
    | Some n := re_sub (drop (n - 1) s');
    | None := c :: re_sub s' }.
Proof. rewrite length_drop. lia. Qed.

(** Line 287 of the source. *)
Definition clean_title (t : pystr) : pystr := re_sub t.
Arguments clean_title : simpl never.


(** ** Python values

    What [json.loads] can produce, which is also every kind of value the
    script handles.  A [PDict] lists the items of the dict in insertion
    order; look-up takes the first item with the key. *)
Inductive pyval :=
| PNone
| PBool (b : bool)
| PInt (z : Z)
| PFloat (f : float)
| PStr (s : pystr)
| PList (l : list pyval)
| PDict (d : list (pystr * pyval)).

(** Truth value testing, as [if v], [not v] and [v or d] use it. *)
Definition truthy (v : pyval) : bool :=
  match v with
  | PNone => false
  | PBool b => b
  | PInt z => negb (z =? 0)%Z
  | PFloat f => negb (PrimFloat.eqb f 0%float)
  | PStr s => negb (bool_decide (s = []))
  | PList l => match l with [] => false | _ => true end
  | PDict d => match d with [] => false | _ => true end
  end.

(** [a or b] *)
Definition py_or (a b : pyval) : pyval := if truthy a then a else b.

(** ** Exceptions and outcomes *)

(** The exception classes that can arise.  The first four are subclasses of
    [requests.exceptions.RequestException]; [JSONDecodeError] is the one
    [Response.json()] raises on a body that is not JSON, a
    [RequestException] since requests 2.27.  [ValueError] and
    [RecursionError] are what [json.loads] raises on a body that is JSON
    but beyond the interpreter's limits, and [Response.json()] passes them
    on as they are; [UnicodeEncodeError] is what [print] raises. *)
Inductive exn :=
| ConnectionError
| Timeout
| HTTPError
| JSONDecodeError
| AttributeError
| TypeError
| KeyError
| IndexError
| OSError
| ServiceError
| ValueError
| RecursionError
| UnicodeEncodeError.

Definition is_RequestException (e : exn) : bool :=
  match e with
  | ConnectionError | Timeout | HTTPError | JSONDecodeError => true
  | _ => false
  end.

Definition is_OSError (e : exn) : bool :=
  match e with OSError => true | _ => false end.

(** [except Exception]: every class above. *)
Definition is_Exception (e : exn) : bool := true.

(** How a piece of code ends: with a value, with an exception travelling
    upwards, or with [sys.exit(code)]. *)
Inductive outcome (A : Type) :=
| Ok (a : A)
| Raised (e : exn)
| Exited (code : Z).
Arguments Ok {A} a.
Arguments Raised {A} e.
Arguments Exited {A} code.

#[global] Instance outcome_ret : MRet outcome := fun A a => Ok a.
#[global] Instance outcome_bind : MBind outcome := fun A B f m =>
  match m with
  | Ok a => f a
  | Raised e => Raised e
  | Exited c => Exited c
  end.

#[global] Instance outcome_fmap : FMap outcome := fun A B f m =>
  match m with
  | Ok a => Ok (f a)
  | Raised e => Raised e
  | Exited c => Exited c
  end.

(** [try: body  except <classes>: handler] *)
Definition try_except {A} (body : outcome A) (classes : exn → bool)
    (handler : exn → outcome A) : outcome A :=
  match body with
  | Raised e => if classes e then handler e else Raised e
  | r => r
  end.

(** ** Operations on dynamically typed values *)

Fixpoint assoc (k : pystr) (d : list (pystr * pyval)) : option pyval :=
  match d with
  | [] => None
  | (k', v) :: d' => if bool_decide (k = k') then Some v else assoc k d'
  end.

(** [v.get(k, dflt)]: only a dict has the method. *)
Definition py_get (v : pyval) (k : pystr) (dflt : pyval) : outcome pyval :=
  match v with
  | PDict d => Ok (default dflt (assoc k d))
  | _ => Raised AttributeError
  end.

(** [len(v)] *)
Definition py_len (v : pyval) : outcome nat :=
  match v with
  | PStr s => Ok (length s)
  | PList l => Ok (length l)
  | PDict d => Ok (length d)
  | _ => Raised TypeError
  end.

(** The items [for x in v] runs through. *)
Definition py_iter (v : pyval) : outcome (list pyval) :=
  match v with
  | PStr s => Ok ((fun c => PStr [c]) <$> s)
  | PList l => Ok l
  | PDict d => Ok ((fun kv => PStr kv.1) <$> d)
  | _ => Raised TypeError
  end.

(** [v[0]]; the keys of a dict that came out of JSON are strings, so the
    integer key is absent. *)
Definition py_first (v : pyval) : outcome pyval :=
  match v with
  | PList (x :: _) => Ok x
  | PStr (c :: _) => Ok (PStr [c])
  | PList [] | PStr [] => Raised IndexError
  | PDict _ => Raised KeyError
  | _ => Raised TypeError
  end.

(** A function of the standard library that wants a [str] argument. *)
Definition expect_str (v : pyval) : outcome pystr :=
  match v with
  | PStr s => Ok s
  | _ => Raised TypeError
  end.

(** ** [print]

    A surrogate code point (U+D800 to U+DFFF) on its own is the one thing
    a [str] can hold that UTF-8 cannot encode; [json.loads] produces one
    from an escape such as "\ud83d". *)
Definition is_surrogate (c : N) : bool := (55296 <=? c) && (c <=? 57343).

Definition printable_str (s : pystr) : bool :=
  forallb (fun c => negb (is_surrogate c)) s.

(** The text an f-string makes of a value can be encoded: a [str] goes in
    as it is; a number, a boolean and [None] are ASCII; a list or a dict
    goes in through [repr], which escapes the surrogates of the strings
    inside. *)
Definition printable (v : pyval) : bool :=
  match v with
  | PStr s => printable_str s
  | _ => true
  end.

(** [print(f"...{v1}...{v2}...")] for a fixed ASCII frame. *)
Definition py_print (values : list pyval) : outcome unit :=
  if forallb printable values then Ok tt else Raised UnicodeEncodeError.
Arguments py_print : simpl never.

(** [s.strip()] *)
Fixpoint lstrip (s : pystr) : pystr :=
  match s with
  | c :: s' => if is_space c then lstrip s' else s
  | [] => []
  end.
Definition py_strip (s : pystr) : pystr := reverse (lstrip (reverse (lstrip s))).
Arguments py_strip : simpl never.

(** ** [os.path] (POSIX flavour) *)

Definition SLASH : N := 47.
Definition DOT : N := 46.

(** [s.rfind(c)] at offset [i]: the highest index holding [c], or [-1]. *)
Fixpoint rfind_from (i : Z) (c : N) (s : pystr) : Z :=
  match s with
  | [] => (-1)%Z
  | x :: s' =>
      let r := rfind_from (i + 1) c s' in
      if (0 <=? r)%Z then r else if x =? c then i else (-1)%Z
  end.
Definition rfind (c : N) (s : pystr) : Z := rfind_from 0 c s.

(** [p[i:j]] for [0 <= i] *)
Definition slice (i j : Z) (p : pystr) : pystr :=
  take (Z.to_nat (j - i)) (drop (Z.to_nat i) p).

(** [genericpath._splitext]: split at the last dot when it lies behind the
    last slash and some character between the two is not a dot. *)
Definition splitext (p : pystr) : pystr * pystr :=
  let sepIndex := rfind SLASH p in
  let dotIndex := rfind DOT p in
  if (sepIndex <? dotIndex)%Z then
    if existsb (fun c => negb (c =? DOT)) (slice (sepIndex + 1) dotIndex p)
    then (take (Z.to_nat dotIndex) p, drop (Z.to_nat dotIndex) p)
    else (p, [])
  else (p, []).

(** [os.path.basename] *)
Definition basename (p : pystr) : pystr := drop (Z.to_nat (rfind SLASH p + 1)) p.

(** [s.lower()] on the ASCII range.  The lower-cased text is only compared
    with ".jpg", ".jpeg", ".png" and ".gif", and no character outside ASCII
    lower-cases to one of their letters. *)
Definition lower (s : pystr) : pystr :=
  (fun c => if (65 <=? c) && (c <=? 90) then c + 32 else c) <$> s.

(** Lines 199 to 209: the MIME type sent with the upload. *)
Definition content_type_of (filename : pystr) : pystr :=
  let ext := lower (splitext filename).2 in
  if bool_decide (ext = lit ".jpg") || bool_decide (ext = lit ".jpeg")
  then lit "image/jpeg"
  else if bool_decide (ext = lit ".png") then lit "image/png"
  else if bool_decide (ext = lit ".gif") then lit "image/gif"
  else lit "application/octet-stream".

(** Lines 303 to 306: the extension of the temporary file. *)
Definition temp_ext (image_url : pystr) : pystr :=
  let ext := (splitext image_url).2 in
  if bool_decide (ext = []) || (5 <? length ext)%nat then lit ".jpg" else ext.

(** Line 308: [f"temp_image_{category}_{idx}{ext}"] *)
Definition temp_name (category : pystr) (idx : nat) (ext : pystr) : pystr :=
  lit "temp_image_" ++ category ++ lit "_" ++ lit (pretty idx) ++ ext.

Arguments basename : simpl never.
Arguments content_type_of : simpl never.
Arguments temp_ext : simpl never.
Arguments temp_name : simpl never.

(** ** The outside world *)

(** What an HTTP call through [requests] comes back with: an exception of
    the transport (always a [RequestException]), or a response with its
    status code and its body, [None] when the body is not JSON and the
    value the JSON text denotes otherwise. *)
Inductive transport := Refused | TimedOut.
Inductive http_answer :=
| Transport (t : transport)
| Response (status : Z) (body : option pyval).

Definition transport_exn (t : transport) : exn :=
  match t with Refused => ConnectionError | TimedOut => Timeout end.

(** [openai.ChatCompletion.create]: an exception, or a response whose
    [choices] each carry the [message.content] value. *)
Inductive completion :=
| ServiceFails
| Completion (choices : list pyval).

(** [open(name, "wb")] followed by [f.write(...)]. *)
Inductive disk_answer := WriteOk | OpenFails | WriteFails.

(** What the script has done so far: the calls of the four stage functions
    with their results, and the creation and removal of files.  A rewrite
    and a download are recorded when they return, an upload when it returns
    or raises, a post when the platform has answered or the transport has
    failed, with whether the post was created. *)
Inductive event :=
| EvRewrite (title : pystr) (description content : pyval) (text : pystr)
| EvCreate (path : pystr)
| EvDownload (url path : pystr) (ok : bool)
| EvUpload (path : pystr) (result : outcome (pyval * pyval))
| EvRemove (path : pystr)
| EvPost (title content : pystr) (attachment_id : pyval) (ok : bool).

(** What makes [json.loads] give up on a text that is JSON: an integer
    with more digits than the interpreter converts (4300 by default since
    Python 3.11), or nesting deeper than its recursion limit. *)
Inductive load_error := TooManyDigits | TooDeep.

Definition load_exn (l : load_error) : exn :=
  match l with TooManyDigits => ValueError | TooDeep => RecursionError end.

(** The collaborators.  Each answer may depend on the whole history, which
    makes a collaborator free to answer every call differently.  The
    interpreter is one of them: [json_limit] tells on which JSON values
    its decoder gives up, [None] meaning that the value is decoded. *)
Record env := {
  news : pystr → http_answer;
  text_service : list event → pystr → pyval → pyval → completion;
  image_get : list event → pystr → http_answer;
  disk : list event → pystr → disk_answer;
  media_post : list event → pystr → pystr → http_answer;
  post_create : list event → pystr → pystr → option pyval → http_answer;
  json_limit : pyval → option load_error
}.

(** The state the script works on: the files in its directory and the
    history. *)
Record world := World { files : gset pystr; trace : list event }.

Definition M (A : Type) : Type := world → outcome A * world.

#[global] Instance M_ret : MRet M := fun A a w => (Ok a, w).
#[global] Instance M_bind : MBind M := fun A B f m w =>
  match m w with
  | (Ok a, w') => f a w'
  | (Raised e, w') => (Raised e, w')
  | (Exited c, w') => (Exited c, w')
  end.

Definition lift {A} (o : outcome A) : M A := fun w => (o, w).
Definition emit (e : event) : M unit :=
  fun w => (Ok tt, World (files w) (trace w ++ [e])).
Definition history : M (list event) := fun w => (Ok (trace w), w).

(** [try: body  except <classes>: handler] on stateful code *)
Definition try_exceptM {A} (body : M A) (classes : exn → bool)
    (handler : exn → M A) : M A := fun w =>
  match body w with
  | (Raised e, w') => if classes e then handler e w' else (Raised e, w')
  | r => r
  end.

(** [for x in xs: body x] *)
Fixpoint for_each {A} (xs : list A) (body : A → M unit) : M unit :=
  match xs with
  | [] => mret tt
  | x :: xs' => body x ≫= fun _ => for_each xs' body
  end.

(** [enumerate(xs, start)] *)
Fixpoint enumerate {A} (start : nat) (xs : list A) : list (nat * A) :=
  match xs with
  | [] => []
  | x :: xs' => (start, x) :: enumerate (S start) xs'
  end.

(** ** [requests] *)

(** The call itself: the response object, or the exception of the
    transport. *)
Definition requests_call (a : http_answer) : outcome (Z * option pyval) :=
  match a with
  | Transport t => Raised (transport_exn t)
  | Response status body => Ok (status, body)
  end.

(** [resp.raise_for_status()]: [HTTPError] on a 4xx or 5xx status. *)
Definition raise_for_status (status : Z) : outcome unit :=
  if (400 <=? status)%Z && (status <? 600)%Z then Raised HTTPError else Ok tt.

(** [resp.json()]: [requests] turns the decoder's [JSONDecodeError] into
    its own, and lets every other exception of [json.loads] through. *)
Definition resp_json (E : env) (body : option pyval) : outcome pyval :=
  match body with
  | Some v =>
      match json_limit E v with
      | None => Ok v
      | Some l => Raised (load_exn l)
      end
  | None => Raised JSONDecodeError
  end.

(** [status in (200, 201)] *)
Definition created_or_ok (status : Z) : bool :=
  (status =? 200)%Z || (status =? 201)%Z.

(** [d[k] = v] on a dict: in place when the key is there, appended
    otherwise. *)
Fixpoint dict_set (k : pystr) (v : pyval) (d : list (pystr * pyval)) :
    list (pystr * pyval) :=
  match d with
  | [] => [(k, v)]
  | (k', v') :: d' =>
      if bool_decide (k = k') then (k, v) :: d' else (k', v') :: dict_set k v d'
  end.

(** [sum(len(v) for v in vs)] *)
Fixpoint total_len (vs : list pyval) : outcome nat :=
  match vs with
  | [] => Ok 0%nat
  | v :: vs' => n ← py_len v; m ← total_len vs'; mret (n + m)%nat
  end.

Definition FINANCE : pystr := lit "finance".
Definition BUSINESS : pystr := lit "business".
Definition TECH : pystr := lit "tech".

(** Line 145. *)
Definition SENTINEL : pystr :=
  lit "Error: Could not rewrite article using OpenAI API.".

Definition NO_TITLE : pystr := lit "No Title".

Section Script.
Variable E : env.

(** *** 2. [fetch_top_headlines] *)

(** One of the three [try] blocks (lines 62-69, 78-85, 94-101); [key]
    names the bucket, and the request of that bucket is the one the news
    oracle answers under that name. *)
Definition fetch_block (key : pystr) (results : list (pystr * pyval)) :
    outcome (list (pystr * pyval)) :=
  try_except
    ('(status, body) ← requests_call (news E key);
     raise_for_status status;;
     data ← resp_json E body;
     articles ← py_get data (lit "articles") (PList []);
     let results' := dict_set key articles results in
     py_len articles;;
     mret results')
    is_RequestException
    (fun _ => mret results).

Definition fetch_top_headlines : outcome (list (pystr * pyval)) :=
  let results := [(FINANCE, PList []); (BUSINESS, PList []); (TECH, PList [])] in
  results ← fetch_block FINANCE results;
  results ← fetch_block BUSINESS results;
  results ← fetch_block TECH results;
  total_articles ← total_len (results.*2);
  if (total_articles =? 0)%nat then Exited 0 else mret results.

(** *** 3. [rewrite_article] *)

(** [response.choices[0].message.content.strip()]; a content that is not
    a string has no [strip]. *)
Definition completion_text (c : completion) : outcome pystr :=
  match c with
  | ServiceFails => Raised ServiceError
  | Completion choices =>
      first ← py_first (PList choices);
      match first with
      | PStr s => mret (py_strip s)
      | _ => Raised AttributeError
      end
  end.

Definition rewrite_article (title : pystr) (description content : pyval) :
    M pystr :=
  h ← history;
  text ← lift (try_except
                 (completion_text (text_service E h title description content))
                 is_Exception
                 (fun _ => mret SENTINEL));
  emit (EvRewrite title description content text);;
  mret text.

(** *** 4. [download_image] *)

(** [with open(name, "wb") as f: f.write(...)]: opening creates the
    file, so a failed write leaves it behind. *)
Definition open_write (name : pystr) : M unit := fun w =>
  match disk E (trace w) name with
  | OpenFails => (Raised OSError, w)
  | WriteFails =>
      (Raised OSError, World ({[name]} ∪ files w) (trace w ++ [EvCreate name]))
  | WriteOk =>
      (Ok tt, World ({[name]} ∪ files w) (trace w ++ [EvCreate name]))
  end.

Definition download_image (image_url local_filename : pystr) : M bool :=
  downloaded ←
    (if bool_decide (image_url = []) then mret false
     else
       try_exceptM
         (h ← history;
          '(status, _) ← lift (requests_call (image_get E h image_url));
          if (status =? 200)%Z
          then open_write local_filename;;
               lift (py_print [PStr local_filename]);;
               mret true
          else mret false)
         is_Exception
         (fun _ => lift (py_print [PStr image_url]);; mret false));
  emit (EvDownload image_url local_filename downloaded);;
  mret downloaded.

(** *** 5. [upload_local_image] *)

Definition path_exists (path : pystr) : M bool :=
  fun w => (Ok (bool_decide (path ∈ files w)), w).

(** Lines 194 to 238, without the report to the history.  The request
    carries the file's base name and MIME type. *)
Definition upload_body (image_path : pystr) : M (pyval * pyval) :=
  found ← path_exists image_path;
  if negb found then mret (PNone, PNone)
  else
    let filename := basename image_path in
    let content_type := content_type_of filename in
    h ← history;
    resp ← lift (try_except
                   (Some <$> requests_call (media_post E h filename content_type))
                   is_RequestException
                   (fun _ => mret None));
    match resp with
    | None => mret (PNone, PNone)
    | Some (status, body) =>
        if negb (created_or_ok status) then mret (PNone, PNone)
        else
          resp_json ← lift (resp_json E body);
          media ← lift (py_get resp_json (lit "media") (PList []));
          unusable ← lift (if negb (truthy media) then mret true
                           else n ← py_len media; mret (n =? 0)%nat);
          if (unusable : bool) then mret (PNone, PNone)
          else
            first ← lift (py_first media);
            attachment_id ← lift (py_get first (lit "id") PNone);
            first ← lift (py_first media);
            media_link ← lift (py_get first (lit "link") PNone);
            lift (py_print [attachment_id; media_link]);;
            mret (attachment_id, media_link)
    end.

Definition upload_local_image (image_path : pystr) : M (pyval * pyval) :=
  fun w =>
    let '(r, w') := upload_body image_path w in
    (r, World (files w') (trace w' ++ [EvUpload image_path r])).

(** [os.remove(path)] *)
Definition os_remove (path : pystr) : M unit := fun w =>
  if bool_decide (path ∈ files w)
  then (Ok tt, World (files w ∖ {[path]}) (trace w ++ [EvRemove path]))
  else (Raised OSError, w).

(** *** 6. [create_wordpress_post] *)

(** The call is reported once the platform has answered or the transport
    has failed, with whether the post was created; both reports of an
    answer (lines 267 and 270) print the title. *)
Definition create_wordpress_post (title content : pystr)
    (attachment_id : pyval) : M bool :=
  let featured_image :=
    if truthy attachment_id then Some attachment_id else None in
  h ← history;
  resp ← lift (try_except
                 (Some <$> requests_call
                             (post_create E h title content featured_image))
                 is_RequestException
                 (fun _ => mret None));
  match resp with
  | None =>
      emit (EvPost title content attachment_id false);;
      mret false
  | Some (status, _) =>
      let created := created_or_ok status in
      emit (EvPost title content attachment_id created);;
      lift (py_print [PStr title]);;
      mret created
  end.

(** *** 7. [main] *)

(** The body of the inner loop, lines 285 to 331; returning early is
    [continue]. *)
Definition loop_body (category : pystr) (idx : nat) (article : pyval) :
    M unit :=
  title ← lift (py_get article (lit "title") PNone);
  original_title ← lift (expect_str (py_or title (PStr NO_TITLE)));
  let original_title := clean_title original_title in
  description ← lift (py_get article (lit "description") (PStr []));
  content ← lift (py_get article (lit "content") (PStr []));
  image_url ← lift (py_get article (lit "urlToImage") (PStr []));
  if negb (truthy image_url) then lift (py_print [PStr original_title])
  else
    rewritten_content ← rewrite_article original_title description content;
    image_url ← lift (expect_str image_url);
    let local_filename := temp_name category idx (temp_ext image_url) in
    downloaded_ok ← download_image image_url local_filename;
    if negb downloaded_ok then lift (py_print [PStr original_title])
    else
      '(attachment_id, _) ← upload_local_image local_filename;
      try_exceptM (os_remove local_filename) is_OSError (fun _ => mret tt);;
      if negb (truthy attachment_id) then lift (py_print [PStr original_title])
      else
        post_created ← create_wordpress_post original_title rewritten_content
                         attachment_id;
        if (post_created : bool)
        then lift (py_print [PStr original_title; PStr category])
        else lift (py_print [PStr original_title; PStr category]).

Definition main : M unit :=
  headlines_by_category ← lift fetch_top_headlines;
  for_each headlines_by_category (fun '(category, articles) =>
    items ← lift (py_iter articles);
    for_each (enumerate 1 items) (fun '(idx, article) =>
      loop_body category idx article)).

End Script.

(** * Vocabulary of the statements *)

(** What [re.sub] with the title pattern amounts to on a single line: the
    title up to its first separator.  (Proved below, not assumed.) *)
Fixpoint cut (s : pystr) : pystr :=
  match s with
  | [] => []
  | c :: s' => if sep3 s then [] else c :: cut s'
  end.


(** Two characters the title pattern cannot tell apart. *)
Definition same_class (a b : N) : Prop :=
  is_space a = is_space b ∧ is_dash a = is_dash b ∧ (a =? LF) = (b =? LF).

(** The fields lines 285 to 291 read from an article: the cleaned title,
    the description, the content and the image URL. *)
Definition article_fields (article : pyval) :
    outcome (pystr * pyval * pyval * pyval) :=
  title ← py_get article (lit "title") PNone;
  original_title ← expect_str (py_or title (PStr NO_TITLE));
  description ← py_get article (lit "description") (PStr []);
  content ← py_get article (lit "content") (PStr []);
  image_url ← py_get article (lit "urlToImage") (PStr []);
  mret (clean_title original_title, description, content, image_url).

(** Lines 217 to 238 as a function of what the media endpoint answered. *)
Definition upload_answer (E : env) (a : http_answer) : outcome (pyval * pyval) :=
  match a with
  | Transport _ => Ok (PNone, PNone)
  | Response status body =>
      if negb (created_or_ok status) then Ok (PNone, PNone)
      else
        resp_json ← resp_json E body;
        media ← py_get resp_json (lit "media") (PList []);
        unusable ← (if negb (truthy media) then mret true
                    else n ← py_len media; mret (n =? 0)%nat);
        if (unusable : bool) then Ok (PNone, PNone)
        else
          first ← py_first media;
          attachment_id ← py_get first (lit "id") PNone;
          first ← py_first media;
          media_link ← py_get first (lit "link") PNone;
          py_print [attachment_id; media_link];;
          mret (attachment_id, media_link)
  end.

(** The code ends without [sys.exit]. *)
Definition no_exit {A} (o : outcome A) : Prop :=
  match o with Exited _ => False | _ => True end.

(** The text service did not deliver a text: it raised, sent no choice, or
    sent a first choice whose content is not a string. *)
Definition service_failure (c : completion) : bool :=
  match c with
  | ServiceFails => true
  | Completion [] => true
  | Completion (PStr _ :: _) => false
  | Completion (_ :: _) => true
  end.

(** What the processing of one article does to the world [w], case by
    case.  [Section Orchestrator] below proves that [loop_body] always ends
    in one of these cases; they are the paths of the source's loop body in
    the order of their exits.  A path that ends with a print of the title
    ends as that print does. *)
Inductive article_run (E : env) (category : pystr) (idx : nat)
    (article : pyval) (w : world) : outcome unit → world → Prop :=
| run_unusable e :
    (* lines 285-291 raise: the record is no dict or its title no text *)
    article_fields article = Raised e →
    article_run E category idx article w (Raised e) w
| run_no_image t d c u :
    (* lines 294-296 *)
    article_fields article = Ok (t, d, c, u) →
    truthy u = false →
    article_run E category idx article w (py_print [PStr t]) w
| run_url_not_text t d c u text e :
    (* line 303: [os.path.splitext] refuses what is not a string *)
    article_fields article = Ok (t, d, c, u) →
    truthy u = true →
    expect_str u = Raised e →
    rewrite_article E t d c w
    = (Ok text, World (files w) (trace w ++ [EvRewrite t d c text])) →
    article_run E category idx article w (Raised e)
      (World (files w) (trace w ++ [EvRewrite t d c text]))
| run_download_raised t d c url text created :
    (* line 181: the handler of [download_image] cannot print the URL;
       [created] tells whether the download left a file behind *)
    article_fields article = Ok (t, d, c, PStr url) →
    url ≠ [] →
    printable_str url = false →
    rewrite_article E t d c w
    = (Ok text, World (files w) (trace w ++ [EvRewrite t d c text])) →
    let path := temp_name category idx (temp_ext url) in
    download_image E url path
      (World (files w) (trace w ++ [EvRewrite t d c text]))
    = (Raised UnicodeEncodeError,
       World (if created : bool then {[path]} ∪ files w else files w)
         (trace w ++ [EvRewrite t d c text]
            ++ (if created then [EvCreate path] else []))) →
    article_run E category idx article w (Raised UnicodeEncodeError)
      (World (if created then {[path]} ∪ files w else files w)
         (trace w ++ [EvRewrite t d c text]
            ++ (if created then [EvCreate path] else [])))
| run_download_failed t d c url text created :
    (* lines 310-312 *)
    article_fields article = Ok (t, d, c, PStr url) →
    url ≠ [] →
    rewrite_article E t d c w
    = (Ok text, World (files w) (trace w ++ [EvRewrite t d c text])) →
    let path := temp_name category idx (temp_ext url) in
    download_image E url path
      (World (files w) (trace w ++ [EvRewrite t d c text]))
    = (Ok false,
       World (if created : bool then {[path]} ∪ files w else files w)
         (trace w ++ [EvRewrite t d c text]
            ++ (if created then [EvCreate path] else [])
            ++ [EvDownload url path false])) →
    article_run E category idx article w (py_print [PStr t])
      (World (if created then {[path]} ∪ files w else files w)
         (trace w ++ [EvRewrite t d c text]
            ++ (if created then [EvCreate path] else [])
            ++ [EvDownload url path false]))
| run_upload_raised t d c url text e :
    (* line 315 raises *)
    article_fields article = Ok (t, d, c, PStr url) →
    url ≠ [] →
    rewrite_article E t d c w
    = (Ok text, World (files w) (trace w ++ [EvRewrite t d c text])) →
    let path := temp_name category idx (temp_ext url) in
    let w2 := World ({[path]} ∪ files w)
                (trace w ++ [EvRewrite t d c text; EvCreate path;
                             EvDownload url path true]) in
    download_image E url path
      (World (files w) (trace w ++ [EvRewrite t d c text]))
    = (Ok true, w2) →
    upload_body E path w2 = (Raised e, w2) →
    article_run E category idx article w (Raised e)
      (World ({[path]} ∪ files w)
         (trace w ++ [EvRewrite t d c text; EvCreate path;
                      EvDownload url path true; EvUpload path (Raised e)]))
| run_upload_failed t d c url text attachment_id link :
    (* lines 322-324 *)
    article_fields article = Ok (t, d, c, PStr url) →
    url ≠ [] →
    rewrite_article E t d c w
    = (Ok text, World (files w) (trace w ++ [EvRewrite t d c text])) →
    let path := temp_name category idx (temp_ext url) in
    let w2 := World ({[path]} ∪ files w)
                (trace w ++ [EvRewrite t d c text; EvCreate path;
                             EvDownload url path true]) in
    download_image E url path
      (World (files w) (trace w ++ [EvRewrite t d c text]))
    = (Ok true, w2) →
    upload_body E path w2 = (Ok (attachment_id, link), w2) →
    truthy attachment_id = false →
    article_run E category idx article w (py_print [PStr t])
      (World (({[path]} ∪ files w) ∖ {[path]})
         (trace w ++ [EvRewrite t d c text; EvCreate path;
                      EvDownload url path true;
                      EvUpload path (Ok (attachment_id, link));
                      EvRemove path]))
| run_posted t d c url text attachment_id link created post :
    (* lines 327-331; [post] is how [create_wordpress_post] ended *)
    article_fields article = Ok (t, d, c, PStr url) →
    url ≠ [] →
    rewrite_article E t d c w
    = (Ok text, World (files w) (trace w ++ [EvRewrite t d c text])) →
    let path := temp_name category idx (temp_ext url) in
    let w2 := World ({[path]} ∪ files w)
                (trace w ++ [EvRewrite t d c text; EvCreate path;
                             EvDownload url path true]) in
    let w4 := World (({[path]} ∪ files w) ∖ {[path]})
                (trace w ++ [EvRewrite t d c text; EvCreate path;
                             EvDownload url path true;
                             EvUpload path (Ok (attachment_id, link));
                             EvRemove path]) in
    download_image E url path
      (World (files w) (trace w ++ [EvRewrite t d c text]))
    = (Ok true, w2) →
    upload_body E path w2 = (Ok (attachment_id, link), w2) →
    truthy attachment_id = true →
    create_wordpress_post E t text attachment_id w4
    = (post, World (files w4)
               (trace w4 ++ [EvPost t text attachment_id created])) →
    post = Ok created
    ∨ post = Raised UnicodeEncodeError ∧ printable_str t = false →
    article_run E category idx article w
      (post ≫= fun _ => py_print [PStr t; PStr category])
      (World (({[path]} ∪ files w) ∖ {[path]})
         (trace w ++ [EvRewrite t d c text; EvCreate path;
                      EvDownload url path true;
                      EvUpload path (Ok (attachment_id, link));
                      EvRemove path;
                      EvPost t text attachment_id created])).

(** The events one pass through the loop body adds to the history. *)
Definition emitted (E : env) (category : pystr) (idx : nat) (article : pyval)
    (w : world) : list event :=
  drop (length (trace w)) (trace (loop_body E category idx article w).2).

(** The events of one article justify every post among them: the post is
    the last of exactly six events, after the rewrite, the creation of the
    temporary file, the successful download of the article's non-empty image
    URL, the upload that returned the attachment id the post carries (which
    is not [None]) and the removal of the file. *)
Definition post_guard (article : pyval) (delta : list event) : Prop :=
  ∀ t body aid created,
    EvPost t body aid created ∈ delta →
    ∃ d c url path link,
      py_get article (lit "urlToImage") (PStr []) = Ok (PStr url)
      ∧ url ≠ []
      ∧ truthy aid = true
      ∧ aid ≠ PNone
      ∧ delta = [EvRewrite t d c body; EvCreate path; EvDownload url path true;
                 EvUpload path (Ok (aid, link)); EvRemove path;
                 EvPost t body aid created].

(** [r] pairs an article that [main] works on with the events of its pass
    through the loop body: the article comes out of a bucket of the fetched
    headlines, at position [idx]. *)
Definition processed (E : env) (r : pyval * list event) : Prop :=
  ∃ headlines category articles items idx w,
    fetch_top_headlines E = Ok headlines
    ∧ (category, articles) ∈ headlines
    ∧ py_iter articles = Ok items
    ∧ (idx, r.1) ∈ enumerate 1 items
    ∧ r.2 = emitted E category idx r.1 w.

(** A stretch of history made of the events of articles, one article after
    the other. *)
Definition segmented (Q : pyval * list event → Prop) (delta : list event) : Prop :=
  ∃ runs : list (pyval * list event),
    delta = concat (runs.*2) ∧ Forall Q runs.

(** * Sample runs

    One business article with an image; every collaborator answers the
    same on every call; the text service, the disk and the media endpoint
    are left open.  The interpreter decodes every body: none of the sample
    bodies is near a limit. *)
Definition sample_article : pyval :=
  PDict [(lit "title", PStr (lit "Fed Raises Rates - Reuters"));
         (lit "description", PStr (lit "The central bank moved."));
         (lit "content", PStr (lit "Rates went up today."));
         (lit "urlToImage", PStr (lit "https://img.example.com/fed.png"))].

Definition sample_env (service : completion) (write : disk_answer)
    (media : http_answer) : env := {|
  news := fun key =>
    if bool_decide (key = BUSINESS)
    then Response 200 (Some (PDict [(lit "articles", PList [sample_article])]))
    else Response 200 (Some (PDict [(lit "articles", PList [])]));
  text_service := fun _ _ _ _ => service;
  image_get := fun _ _ => Response 200 None;
  disk := fun _ _ => write;
  media_post := fun _ _ _ => media;
  post_create := fun _ _ _ _ => Response 201 None;
  json_limit := fun _ => None
|}.

(** The media endpoint accepts the image and names it 42. *)
Definition media_accepted : http_answer :=
  Response 200
    (Some (PDict [(lit "media",
                   PList [PDict [(lit "id", PInt 42);
                                 (lit "link", PStr (lit "https://blog/fed.png"))]])])).

Definition service_text : completion :=
  Completion [PStr (lit "  The Federal Reserve raised rates.  ")].

(** An empty directory and no history. *)
Definition fresh : world := World ∅ [].

(** How often [path] is removed in a stretch of history. *)
Fixpoint removals (path : pystr) (delta : list event) : nat :=
  match delta with
  | [] => 0
  | EvRemove p :: delta' =>
      ((if bool_decide (p = path) then 1 else 0) + removals path delta')%nat
  | _ :: delta' => removals path delta'
  end.

(** The request for a bucket failed: the transport raised (a refused
    connection, a timeout), the status is one [raise_for_status] rejects
    (4xx or 5xx, what [requests] calls not ok), or the body is not JSON. *)
Definition request_fails (a : http_answer) : bool :=
  match a with
  | Transport _ => true
  | Response status body =>
      ((400 <=? status)%Z && (status <? 600)%Z)
      || match body with None => true | Some _ => false end
  end.

(** The request for a bucket brought no article: it failed, or it brought a
    JSON object that the interpreter decodes and whose "articles" are
    absent or have length zero. *)
Definition bucket_empty (E : env) (a : http_answer) : bool :=
  request_fails a
  || match a with
     | Response _ (Some (PDict d)) =>
         match json_limit E (PDict d) with
         | None =>
             match default (PList []) (assoc (lit "articles") d) with
             | PList [] | PStr [] | PDict [] => true
             | _ => false
             end
         | Some _ => false
         end
     | _ => false
     end.

(** The environment [E] with another answer to the request of one
    bucket. *)
Definition with_news (E : env) (key : pystr) (a : http_answer) : env := {|
  news := fun k => if bool_decide (k = key) then a else news E k;
  text_service := text_service E;
  image_get := image_get E;
  disk := disk E;
  media_post := media_post E;
  post_create := post_create E;
  json_limit := json_limit E
|}.

(** A successful answer with no article in it. *)
Definition EMPTY_ANSWER : http_answer :=
  Response 200 (Some (PDict [(lit "articles", PList [])])).

(** All three requests fail, each in its own way. *)
Definition silent_env : env :=
  with_news
    (with_news
       (with_news (sample_env service_text WriteOk media_accepted)
          FINANCE (Transport TimedOut))
       BUSINESS (Response 503 (Some (PDict [(lit "status", PStr (lit "error"))]))))
    TECH (Response 200 None).

(** The finance request brings one article, the business request times
    out, the tech request brings none. *)
Definition one_down_env : env :=
  with_news
    (with_news (sample_env service_text WriteOk media_accepted)
       FINANCE
       (Response 200 (Some (PDict [(lit "articles", PList [sample_article])]))))
    BUSINESS (Transport TimedOut).

(** ** The extension as the specification words it

    "The extension taken from the URL's path": the URL is split as RFC 3986
    has it, scheme "://" authority path "?" query "#" fragment, and the
    extension is the one [os.path.splitext] finds in the path. *)

Definition QUESTION : N := 63.
Definition HASH : N := 35.
Definition COLON : N := 58.

(** [s] up to the first character [stop] accepts. *)
Fixpoint until (stop : N → bool) (s : pystr) : pystr :=
  match s with
  | [] => []
  | c :: s' => if stop c then [] else c :: until stop s'
  end.

(** [s] from the first character [stop] accepts. *)
Fixpoint from (stop : N → bool) (s : pystr) : pystr :=
  match s with
  | [] => []
  | c :: s' => if stop c then s else from stop s'
  end.

(** What follows the first "://". *)
Fixpoint after_scheme_mark (s : pystr) : option pystr :=
  match s with
  | [] => None
  | c1 :: s' =>
      match s' with
      | c2 :: c3 :: r =>
          if (c1 =? COLON) && (c2 =? SLASH) && (c3 =? SLASH) then Some r
          else after_scheme_mark s'
      | _ => None
      end
  end.

Definition spec_url_path (u : pystr) : pystr :=
  let hier := until (fun c => (c =? QUESTION) || (c =? HASH)) u in
  from (fun c => c =? SLASH) (default hier (after_scheme_mark hier)).

Definition spec_temp_ext (u : pystr) : pystr :=
  let ext := (splitext (spec_url_path u)).2 in
  if bool_decide (ext = []) || (5 <? length ext)%nat then lit ".jpg" else ext.

(** ** Vocabulary of the further statements *)

(** A decimal digit. *)
Definition is_digit (c : N) : bool := (48 <=? c) && (c <=? 57).

(** Some suffix of [s] begins with a separator of the title pattern. *)
Fixpoint has_separator (s : pystr) : bool :=
  match s with
  | [] => false
  | _ :: s' => sep3 s || has_separator s'
  end.

(** The environment [E] with a media endpoint that always gives [answer]. *)
Definition with_media (E : env) (answer : http_answer) : env := {|
  news := news E;
  text_service := text_service E;
  image_get := image_get E;
  disk := disk E;
  media_post := fun _ _ _ => answer;
  post_create := post_create E;
  json_limit := json_limit E
|}.

(** The answer to the request of a bucket passes [raise_for_status] and is
    JSON, but not of the shape the block can take in: not an object, or an
    object whose "articles" have no length ([null], a number, a boolean). *)
Definition bucket_malformed (a : http_answer) : bool :=
  match a with
  | Response status (Some data) =>
      negb ((400 <=? status)%Z && (status <? 600)%Z)
      && match data with
         | PDict d =>
             match default (PList []) (assoc (lit "articles") d) with
             | PStr _ | PList _ | PDict _ => false
             | _ => true
             end
         | _ => true
         end
  | _ => false
  end.

(** The environment [E] with an image host that always gives [answer]. *)
Definition with_image (E : env) (answer : http_answer) : env := {|
  news := news E;
  text_service := text_service E;
  image_get := fun _ _ => answer;
  disk := disk E;
  media_post := media_post E;
  post_create := post_create E;
  json_limit := json_limit E
|}.

(** The kinds of calls in a history. *)
Definition is_rewrite (ev : event) : bool :=
  match ev with EvRewrite _ _ _ _ => true | _ => false end.
Definition is_download (ev : event) : bool :=
  match ev with EvDownload _ _ _ => true | _ => false end.
Definition is_upload (ev : event) : bool :=
  match ev with EvUpload _ _ => true | _ => false end.
Definition is_post (ev : event) : bool :=
  match ev with EvPost _ _ _ _ => true | _ => false end.

(** How many events of a kind a stretch of history holds. *)
Definition calls (kind : event → bool) (delta : list event) : nat :=
  length (List.filter kind delta).

(** ** Texts that cannot be printed *)

(** U+D83D, the first half of an emoji's surrogate pair: what [json.loads]
    makes of the escape "\ud83d" when the second half is missing. *)
Definition LONE_SURROGATE : N := 55357.

(** An article without an image whose title ends in a lone surrogate. *)
Definition unprintable_article : pyval :=
  PDict [(lit "title", PStr (lit "Markets rally " ++ [LONE_SURROGATE]));
         (lit "urlToImage", PNone)].

(** The business request brings that article and the sample article behind
    it. *)
Definition unprintable_first_env : env :=
  with_news (sample_env service_text WriteOk media_accepted) BUSINESS
    (Response 200
       (Some (PDict [(lit "articles",
                      PList [unprintable_article; sample_article])]))).

(** ** A failed request as the specification words it

    "Fails with a transport error, times out, returns a non-success
    status, or returns an unparseable body": the status is outside 200 to
    299, or [resp.json()] makes no value of the body. *)
Definition spec_request_fails (E : env) (a : http_answer) : bool :=
  match a with
  | Transport _ => true
  | Response status body =>
      negb ((200 <=? status)%Z && (status <? 300)%Z)
      || match resp_json E body with Ok _ => false | _ => true end
  end.

(** The finance request is answered with status 301 (and no address to
    follow) and a body that holds the sample article. *)
Definition moved_env : env :=
  with_news (sample_env service_text WriteOk media_accepted) FINANCE
    (Response 301 (Some (PDict [(lit "articles", PList [sample_article])]))).

(** The value holds an integer of more than 4300 digits. *)
Fixpoint too_many_digits (v : pyval) : bool :=
  match v with
  | PInt z => (10 ^ 4300 <=? Z.abs z)%Z
  | PList l => existsb too_many_digits l
  | PDict d => existsb (fun kv => too_many_digits kv.2) d
  | _ => false
  end.

(** The environment [E] under an interpreter with the default limit on
    the digits of an integer. *)
Definition with_digit_limit (E : env) : env := {|
  news := news E;
  text_service := text_service E;
  image_get := image_get E;
  disk := disk E;
  media_post := media_post E;
  post_create := post_create E;
  json_limit := fun v => if too_many_digits v then Some TooManyDigits else None
|}.

(** The finance request is answered 200 with a JSON object that counts
    its results with an integer of 4301 digits. *)
Definition digits_env : env :=
  with_digit_limit
    (with_news (sample_env service_text WriteOk media_accepted) FINANCE
       (Response 200
          (Some (PDict [(lit "totalResults", PInt (10 ^ 4300));
                        (lit "articles", PList [sample_article])])))).
(** * Title cleaning *)

Example clean_fed :
  clean_title (lit "Fed Raises Rates - Reuters") = lit "Fed Raises Rates".
Proof. reflexivity. Qed.

Example clean_plain :
  clean_title (lit "Plain Headline") = lit "Plain Headline".
Proof. reflexivity. Qed.

(** The cleaning can leave nothing: a title that is only a suffix. *)
Example clean_title_only_suffix : clean_title (lit " - Reuters") = [].
Proof. reflexivity. Qed.

Lemma re_sub_cons c s' :
  re_sub (c :: s') =
  match match_len (c :: s') with
  | Some n => re_sub (drop (n - 1) s')
  | None => c :: re_sub s'
  end.
Proof. simp re_sub. destruct (match_len (c :: s')); reflexivity. Qed.

(** On a title without a line feed, [.*$] runs to the end. *)
Lemma dotstar_eol_single_line (s : pystr) :
  LF ∉ s → dotstar_eol s = Some (length s).
Proof.
  induction s as [|c s IH]; intros Hs; [reflexivity|].
  apply not_elem_of_cons in Hs as [Hc Hs]. simpl.
  destruct (N.eqb_spec c LF) as [->|_]; [done|].
  by rewrite IH.
Qed.

Lemma match_len_single_line (s : pystr) :
  LF ∉ drop 3 s → match_len s = if sep3 s then Some (length s) else None.
Proof.
  intros Hs. unfold match_len. destruct (sep3 s) eqn:Hsep; [|done].
  rewrite dotstar_eol_single_line by done. simpl. f_equal.
  destruct s as [|c1 [|c2 [|c3 r]]]; simplify_eq/=. by rewrite drop_0.
Qed.

(** A match always ends where [$] holds: at the end of the string or in
    front of its final line feed. *)
Lemma dotstar_eol_stop (s : pystr) k :
  dotstar_eol s = Some k → at_eol (drop k s) = true.
Proof.
  revert k. induction s as [|c s IH]; intros k.
  - intros [= <-]. reflexivity.
  - cbn [dotstar_eol]. destruct (c =? LF) eqn:E.
    + destruct (at_eol (c :: s)) eqn:Heol; [|done]. by intros [= <-].
    + destruct (dotstar_eol s) as [k'|].
      * intros [= <-]. by apply IH.
      * destruct (at_eol (c :: s)) eqn:Heol; [|done]. by intros [= <-].
Qed.

Lemma match_len_stop (s : pystr) n :
  match_len s = Some n → (3 ≤ n)%nat ∧ at_eol (drop n s) = true.
Proof.
  unfold match_len. destruct (sep3 s) eqn:Hsep; [|done].
  destruct (dotstar_eol (drop 3 s)) as [k|] eqn:Hk; [|done].
  simpl. intros [= <-]. split; [lia|].
  apply dotstar_eol_stop in Hk. by rewrite drop_drop in Hk.
Qed.

Lemma re_sub_single_line (s : pystr) : LF ∉ s → re_sub s = cut s.
Proof.
  induction s as [|c s IH]; intros Hs; [by simp re_sub|].
  rewrite re_sub_cons, match_len_single_line.
  - cbn [cut]. destruct (sep3 (c :: s)).
    + simpl length. rewrite drop_ge by lia. by simp re_sub.
    + f_equal. apply IH. by apply not_elem_of_cons in Hs as [_ ?].
  - intros Hin. apply Hs. by eapply subseteq_drop.
Qed.

Lemma cut_prefix (s : pystr) : cut s `prefix_of` s.
Proof.
  induction s as [|c s IH]; [done|]. simpl.
  destruct (sep3 (c :: s)); [apply prefix_nil|by apply prefix_cons].
Qed.

Lemma sep3_prefix (s t : pystr) : s `prefix_of` t → sep3 s = true → sep3 t = true.
Proof.
  intros [r ->]. by destruct s as [|c1 [|c2 [|c3 s]]].
Qed.

Lemma cut_idempotent (s : pystr) : cut (cut s) = cut s.
Proof.
  induction s as [|c s IH]; [done|]. simpl.
  destruct (sep3 (c :: s)) eqn:Hsep; [done|]. simpl.
  destruct (sep3 (c :: cut s)) eqn:Hsep'.
  - rewrite (sep3_prefix (c :: cut s) (c :: s)) in Hsep; [done| |done].
    apply prefix_cons, cut_prefix.
  - by rewrite IH.
Qed.

Lemma cut_single_line (s : pystr) : LF ∉ s → LF ∉ cut s.
Proof.
  intros Hs Hin. apply Hs.
  destruct (cut_prefix s) as [r Hr]. rewrite Hr. apply elem_of_app. by left.
Qed.

(** The pattern only looks at the classes of the characters. *)
Lemma at_eol_class (s t : pystr) :
  Forall2 same_class s t → at_eol s = at_eol t.
Proof.
  intros H. destruct H as [|a b s t (_ & _ & Hlf) H]; [done|].
  destruct H; [|done]. simpl. done.
Qed.

Lemma dotstar_eol_class (s t : pystr) :
  Forall2 same_class s t → dotstar_eol s = dotstar_eol t.
Proof.
  induction 1 as [|a b s t Hab Hst IH]; [done|].
  cbn [dotstar_eol]. rewrite IH.
  rewrite (at_eol_class (a :: s) (b :: t)) by by constructor.
  destruct Hab as (_ & _ & ->). done.
Qed.

Lemma sep3_class (s t : pystr) :
  Forall2 same_class s t → sep3 s = sep3 t.
Proof.
  intros H. unfold sep3.
  destruct H as [|a1 b1 s t (-> & _ & _) H]; [done|].
  destruct H as [|a2 b2 s t (_ & -> & _) H]; [done|].
  destruct H as [|a3 b3 s t (-> & _ & _) H]; done.
Qed.

Lemma match_len_class (s t : pystr) :
  Forall2 same_class s t → match_len s = match_len t.
Proof.
  intros H. unfold match_len. rewrite (sep3_class s t H).
  by rewrite (dotstar_eol_class (drop 3 s) (drop 3 t)) by by apply Forall2_drop.
Qed.

Lemma at_eol_short (s : pystr) : at_eol s = true → (length s ≤ 1)%nat.
Proof. destruct s as [|c [|c' s]]; simpl; (done || lia). Qed.

(** Exchanging the dash of a separator whose tail is a single line does not
    change the outcome. *)
Lemma re_sub_dash (p q : pystr) (w1 w2 d d' : N) :
  is_space w1 = true → is_space w2 = true →
  is_dash d = true → is_dash d' = true → LF ∉ q →
  re_sub (p ++ w1 :: d :: w2 :: q) = re_sub (p ++ w1 :: d' :: w2 :: q).
Proof.
  intros Hw1 Hw2 Hd Hd' Hq.
  assert (Hcls : ∀ p', Forall2 same_class (p' ++ w1 :: d :: w2 :: q)
                                          (p' ++ w1 :: d' :: w2 :: q)).
  { intros p'. apply Forall2_app; [apply Forall_Forall2_diag, Forall_forall; done|].
    constructor; [done|]. constructor.
    - repeat split; [|congruence|].
      + unfold is_dash, is_space in *. unfold HYPHEN, EN_DASH, EM_DASH in *.
        destruct (N.eqb_spec d 45), (N.eqb_spec d 8211), (N.eqb_spec d 8212),
          (N.eqb_spec d' 45), (N.eqb_spec d' 8211), (N.eqb_spec d' 8212);
          simplify_eq/=; done.
      + unfold is_dash in *. unfold HYPHEN, EN_DASH, EM_DASH, LF in *.
        destruct (N.eqb_spec d 45), (N.eqb_spec d 8211), (N.eqb_spec d 8212),
          (N.eqb_spec d' 45), (N.eqb_spec d' 8211), (N.eqb_spec d' 8212);
          simplify_eq/=; done.
    - apply Forall_Forall2_diag, Forall_forall. done. }
  induction p as [|c p IH].
  - simpl.
    rewrite (re_sub_cons w1 (d :: w2 :: q)), (re_sub_cons w1 (d' :: w2 :: q)).
    rewrite (match_len_single_line (w1 :: d :: w2 :: q)),
      (match_len_single_line (w1 :: d' :: w2 :: q))
      by (simpl; by rewrite drop_0).
    unfold sep3. rewrite Hw1, Hw2, Hd, Hd'. simpl.
    by rewrite !drop_all.
  - simpl.
    rewrite (re_sub_cons c (p ++ w1 :: d :: w2 :: q)),
      (re_sub_cons c (p ++ w1 :: d' :: w2 :: q)).
    specialize (Hcls (c :: p)). simpl in Hcls.
    rewrite (match_len_class _ _ Hcls).
    destruct (match_len (c :: p ++ w1 :: d' :: w2 :: q)) as [n|] eqn:Hn;
      [|by rewrite IH].
    apply match_len_stop in Hn as [Hn3 Hn]. apply at_eol_short in Hn.
    rewrite length_drop in Hn. simpl in Hn. rewrite length_app in Hn. simpl in Hn.
    f_equal.
    change (p ++ w1 :: d :: w2 :: q) with (p ++ [w1; d] ++ w2 :: q).
    change (p ++ w1 :: d' :: w2 :: q) with (p ++ [w1; d'] ++ w2 :: q).
    rewrite !(assoc_L (++)).
    rewrite !drop_app_ge by (rewrite length_app; simpl; lia).
    by rewrite !length_app.
Qed.

(** C4, counterexample: idempotence fails once a title has an inner line
    feed.  In "a - b\n - d" the first separator is not matched (the line
    feed behind "b" is not the last character), the second one is; what is
    left, "a - b\n", now ends in that line feed, and a second pass cuts it
    down to "a\n". *)
Lemma clean_title_twice_differs :
  clean_title (clean_title (lit "a - b" ++ LF :: lit " - d"))
  ≠ clean_title (lit "a - b" ++ LF :: lit " - d").
Proof. vm_compute. discriminate. Qed.

(** C4, as amended: on titles that contain no line feed, cleaning twice is
    cleaning once; "Fed Raises Rates - Reuters" becomes "Fed Raises Rates";
    "Plain Headline" stays; and a title whose separator is an en dash or an
    em dash between white space, with no line feed behind it, is cleaned to
    the same result as the title with a hyphen in that place. *)
Theorem clean_title_single_line (t p q : pystr) (w1 w2 d : N) :
  LF ∉ t →
  is_space w1 = true → is_space w2 = true → d = EN_DASH ∨ d = EM_DASH → LF ∉ q →
  clean_title (clean_title t) = clean_title t
  ∧ clean_title (lit "Fed Raises Rates - Reuters") = lit "Fed Raises Rates"
  ∧ clean_title (lit "Plain Headline") = lit "Plain Headline"
  ∧ clean_title (p ++ w1 :: d :: w2 :: q)
    = clean_title (p ++ w1 :: HYPHEN :: w2 :: q).
Proof.
  intros Ht Hw1 Hw2 Hd Hq. unfold clean_title. split; [|split; [|split]].
  - rewrite (re_sub_single_line t Ht).
    rewrite re_sub_single_line by by apply cut_single_line.
    apply cut_idempotent.
  - apply clean_fed.
  - apply clean_plain.
  - apply re_sub_dash; try done. by destruct Hd as [-> | ->].
Qed.

Lemma clean_title_single_line_witness :
  clean_title (clean_title (lit "Fed Raises Rates - Reuters"))
  = clean_title (lit "Fed Raises Rates - Reuters")
  ∧ clean_title (lit "Fed Raises Rates - Reuters") = lit "Fed Raises Rates"
  ∧ clean_title (lit "Plain Headline") = lit "Plain Headline"
  ∧ clean_title (lit "Fed Raises Rates" ++ 32 :: EN_DASH :: 32 :: lit "Reuters")
    = clean_title (lit "Fed Raises Rates" ++ 32 :: HYPHEN :: 32 :: lit "Reuters").
Proof.
  apply (clean_title_single_line (lit "Fed Raises Rates - Reuters")
           (lit "Fed Raises Rates") (lit "Reuters") 32 32 EN_DASH).
  - compute_done.
  - reflexivity.
  - reflexivity.
  - by left.
  - compute_done.
Defined.

(** * The stage functions, one by one *)

Lemma no_exit_bind {A B} (m : outcome A) (f : A → outcome B) :
  no_exit m → (∀ a, no_exit (f a)) → no_exit (m ≫= f).
Proof. destruct m; simpl; auto. Qed.

Lemma py_get_no_exit v k dflt : no_exit (py_get v k dflt).
Proof. by destruct v. Qed.

Lemma py_len_no_exit v : no_exit (py_len v).
Proof. by destruct v. Qed.

Lemma py_first_no_exit v : no_exit (py_first v).
Proof. by destruct v as [ | | | |[]|[]| ]. Qed.

Lemma py_print_no_exit (values : list pyval) : no_exit (py_print values).
Proof. unfold py_print. by destruct (forallb printable values). Qed.

Lemma py_print_str (s : pystr) :
  py_print [PStr s] = if printable_str s then Ok tt else Raised UnicodeEncodeError.
Proof. unfold py_print. simpl. by rewrite andb_true_r. Qed.

Lemma py_print_cases (values : list pyval) :
  py_print values = Ok tt ∨ py_print values = Raised UnicodeEncodeError.
Proof. unfold py_print. destruct (forallb printable values); auto. Qed.

Lemma resp_json_no_exit (E : env) (body : option pyval) : no_exit (resp_json E body).
Proof. destruct body as [v|]; simpl; [|done]. by destruct (json_limit E v). Qed.

Lemma upload_answer_no_exit (E : env) (a : http_answer) :
  no_exit (upload_answer E a).
Proof.
  destruct a as [tr|status body]; simpl; [done|].
  destruct (negb (created_or_ok status)); [done|].
  apply no_exit_bind; [apply resp_json_no_exit|]. intros resp.
  apply no_exit_bind; [apply py_get_no_exit|]. intros media.
  apply no_exit_bind.
  { destruct (negb (truthy media)); [done|].
    apply no_exit_bind; [apply py_len_no_exit|done]. }
  intros []; [done|].
  apply no_exit_bind; [apply py_first_no_exit|]. intros first.
  apply no_exit_bind; [apply py_get_no_exit|]. intros aid.
  apply no_exit_bind; [apply py_first_no_exit|]. intros first'.
  apply no_exit_bind; [apply py_get_no_exit|]. intros link.
  apply no_exit_bind; [apply py_print_no_exit|]. done.
Qed.

Lemma bind_M_unfold {A B} (m : M A) (f : A → M B) (w : world) :
  (m ≫= f) w =
  match m w with
  | (Ok a, w') => f a w'
  | (Raised e, w') => (Raised e, w')
  | (Exited c, w') => (Exited c, w')
  end.
Proof. reflexivity. Qed.

Ltac run_step :=
  repeat (rewrite bind_M_unfold; cbn [lift history emit mret M_ret]).

Section Stages.
Variable E : env.

(** [rewrite_article] always returns a text and reports it; the text is the
    sentinel whenever the service failed. *)
Lemma rewrite_article_total (title : pystr) (description content : pyval) (w : world) :
  ∃ text,
    rewrite_article E title description content w
    = (Ok text, World (files w) (trace w ++ [EvRewrite title description content text]))
    ∧ (service_failure (text_service E (trace w) title description content) = true →
       text = SENTINEL).
Proof.
  unfold rewrite_article. run_step.
  destruct (text_service E (trace w) title description content)
    as [|[|[] choices]]; simpl; (eexists; split; [reflexivity|done]).
Qed.

(** [download_image] on a URL that is not empty ends in one of three
    ways: it returns [True], after the file has been written and its name
    printed; it returns [False]; or its handler raises, on a URL that
    cannot be printed.  A write that fails half-way leaves the file. *)
Lemma download_image_cases (url path : pystr) (w : world) :
  url ≠ [] →
  ∃ created,
    (download_image E url path w
     = (Ok true,
        World ({[path]} ∪ files w)
          (trace w ++ [EvCreate path; EvDownload url path true]))
     ∧ printable_str path = true
     ∧ disk E (trace w) path = WriteOk)
    ∨ download_image E url path w
      = (Ok false,
         World (if created : bool then {[path]} ∪ files w else files w)
           (trace w ++ (if created then [EvCreate path] else [])
              ++ [EvDownload url path false]))
    ∨ (download_image E url path w
       = (Raised UnicodeEncodeError,
          World (if created then {[path]} ∪ files w else files w)
            (trace w ++ (if created then [EvCreate path] else [])))
       ∧ printable_str url = false).
Proof.
  intros Hurl. destruct w as [fs h]. unfold download_image.
  rewrite bool_decide_eq_false_2 by done.
  rewrite bind_M_unfold. unfold try_exceptM. run_step.
  assert (Hhandler : ∀ w',
    (lift (py_print [PStr url]) ≫= λ _ : unit, (mret false : M bool)) w'
    = (if printable_str url then Ok false else Raised UnicodeEncodeError, w')).
  { intros w'. rewrite bind_M_unfold. cbn [lift]. rewrite py_print_str.
    by destruct (printable_str url). }
  assert (Hends : ∀ w' : world,
    match (if printable_str url then Ok false else Raised UnicodeEncodeError)
    with
    | Ok a => (emit (EvDownload url path a) ≫= λ _ : unit, (mret a : M bool)) w'
    | Raised e => (Raised e, w')
    | Exited c => (Exited c, w')
    end
    = (Ok false, World (files w') (trace w' ++ [EvDownload url path false]))
    ∨ match (if printable_str url then Ok false else Raised UnicodeEncodeError)
      with
      | Ok a => (emit (EvDownload url path a) ≫= λ _ : unit, (mret a : M bool)) w'
      | Raised e => (Raised e, w')
      | Exited c => (Exited c, w')
      end
      = (Raised UnicodeEncodeError, w')
      ∧ printable_str url = false).
  { intros w'. destruct (printable_str url); [left|by right]. by run_step. }
  cbn [trace files].
  destruct (image_get E h url) as [tr|status body]; simpl.
  { rewrite Hhandler. exists false. right. rewrite app_nil_r.
    apply (Hends (World fs h)). }
  destruct (status =? 200)%Z; simpl.
  2: { exists false. right. left. run_step. done. }
  rewrite bind_M_unfold. unfold open_write. simpl.
  destruct (disk E h path) eqn:Hdisk; simpl.
  - rewrite bind_M_unfold. cbn [lift]. rewrite py_print_str.
    destruct (printable_str path) eqn:Hpath; simpl.
    + exists true. left. run_step. simpl. by rewrite <- app_assoc.
    + rewrite Hhandler. exists true. right.
      specialize (Hends (World ({[path]} ∪ fs) (h ++ [EvCreate path]))).
      simpl in Hends. by rewrite <- app_assoc in Hends.
  - rewrite Hhandler. exists false. right. rewrite app_nil_r.
    apply (Hends (World fs h)).
  - rewrite Hhandler. exists true. right.
    specialize (Hends (World ({[path]} ∪ fs) (h ++ [EvCreate path]))).
    simpl in Hends. by rewrite <- app_assoc in Hends.
Qed.

(** [upload_local_image] without its report changes nothing; what it
    returns is decided by the existence of the file and by the answer of
    the media endpoint. *)
Lemma upload_body_eq (path : pystr) (w : world) :
  upload_body E path w
  = (if bool_decide (path ∈ files w)
     then upload_answer E (media_post E (trace w) (basename path)
                             (content_type_of (basename path)))
     else Ok (PNone, PNone),
     w).
Proof.
  unfold upload_body, path_exists, upload_answer. rewrite bind_M_unfold.
  destruct (bool_decide (path ∈ files w)); simpl; [|done].
  run_step.
  destruct (media_post E (trace w) (basename path)
              (content_type_of (basename path))) as [tr|status body]; simpl.
  { by destruct tr. }
  destruct (created_or_ok status); simpl; [|done].
  run_step. destruct (resp_json E body) as [resp| |]; simpl; [|done..].
  run_step. destruct (py_get resp (lit "media") (PList [])) as [media| |];
    simpl; [|done..].
  run_step.
  destruct (if negb (truthy media) then mret true
            else py_len media ≫= λ n, mret (n =? 0)%nat) as [[]| |];
    simpl; [done| |done..].
  run_step. destruct (py_first media) as [first| |]; simpl; [|done..].
  run_step. destruct (py_get first (lit "id") PNone) as [aid| |]; simpl; [|done..].
  run_step. destruct (py_get first (lit "link") PNone) as [link| |]; simpl;
    [|done..].
  run_step. by destruct (py_print [aid; link]).
Qed.

(** [create_wordpress_post] reports the call whatever happens; it returns
    what it reported unless the title cannot be printed, and then it
    raises after the platform has answered. *)
Lemma create_wordpress_post_cases (title content : pystr) (aid : pyval) (w : world) :
  ∃ created post,
    create_wordpress_post E title content aid w
    = (post, World (files w) (trace w ++ [EvPost title content aid created]))
    ∧ (post = Ok created
       ∨ post = Raised UnicodeEncodeError ∧ printable_str title = false)
    ∧ (printable_str title = true → post = Ok created).
Proof.
  unfold create_wordpress_post. run_step.
  destruct (post_create E (trace w) title content
              (if truthy aid then Some aid else None)) as [tr|status body];
    simpl.
  { destruct tr; simpl; run_step; exists false, (Ok false); eauto. }
  run_step. rewrite py_print_str. exists (created_or_ok status).
  destruct (printable_str title); simpl.
  - exists (Ok (created_or_ok status)). eauto.
  - exists (Raised UnicodeEncodeError). split; [done|]. split; [by right|done].
Qed.
End Stages.

(** * The orchestrator *)

Ltac no_such_event Hin :=
  repeat (apply elem_of_cons in Hin as [|Hin]; [done|]);
  by apply elem_of_nil in Hin.

Section Orchestrator.
Variable E : env.

Lemma expect_str_no_exit v : no_exit (expect_str v).
Proof. by destruct v. Qed.

(** Every pass through the loop body is one of the runs of
    [article_run]. *)
Lemma loop_body_run (category : pystr) (idx : nat) (article : pyval) (w : world) :
  article_run E category idx article w
    (loop_body E category idx article w).1
    (loop_body E category idx article w).2.
Proof.
  unfold loop_body.
  destruct article as [ |b|z|f|s|l|items];
    try (by apply run_unusable).
  run_step. cbn [py_get].
  set (title := default PNone (assoc (lit "title") items)).
  set (d := default (PStr []) (assoc (lit "description") items)).
  set (c := default (PStr []) (assoc (lit "content") items)).
  set (u := default (PStr []) (assoc (lit "urlToImage") items)).
  destruct (expect_str (py_or title (PStr NO_TITLE))) as [s|e|code] eqn:Hs.
  2: { apply run_unusable. unfold article_fields. simpl. fold title. by rewrite Hs. }
  2: { pose proof (expect_str_no_exit (py_or title (PStr NO_TITLE))) as H.
       by rewrite Hs in H. }
  assert (Hf : article_fields (PDict items)
               = Ok (clean_title s, d, c, u)).
  { unfold article_fields. simpl. fold title. by rewrite Hs. }
  run_step.
  destruct (truthy u) eqn:Hu; simpl.
  2: { by eapply run_no_image. }
  destruct (rewrite_article_total E (clean_title s) d c w) as (text & Hrw & _).
  rewrite bind_M_unfold, Hrw.
  clearbody title d c u.
  destruct u as [ |b|z|f|url|l|d']; simpl in Hu; try discriminate;
    try (rewrite bind_M_unfold; simpl; by eapply run_url_not_text).
  assert (Hurl : url ≠ []).
  { intros ->. by rewrite bool_decide_eq_true_2 in Hu. }
  rewrite bind_M_unfold. simpl.
  set (path := temp_name category idx (temp_ext url)).
  destruct (download_image_cases E url path
              (World (files w) (trace w ++ [EvRewrite (clean_title s) d c text]))
              Hurl) as (created & [(Hdl & _ & _)|[Hdl|[Hdl Hp]]]);
    simpl in Hdl; rewrite <- ?app_assoc in Hdl;
    rewrite bind_M_unfold, Hdl; simpl.
  2: { by eapply run_download_failed. }
  2: { by eapply run_download_raised. }
  rewrite bind_M_unfold. unfold upload_local_image.
  simpl app in *.
  set (w2 := World ({[path]} ∪ files w)
               (trace w ++ [EvRewrite (clean_title s) d c text; EvCreate path;
                            EvDownload url path true])) in *.
  pose proof (upload_body_eq E path w2) as Hup.
  assert (Hne : no_exit (upload_body E path w2).1).
  { rewrite Hup. cbn [fst].
    destruct (bool_decide (path ∈ files w2)); [apply upload_answer_no_exit|done]. }
  destruct (upload_body E path w2) as [r w2'] eqn:Hr.
  assert (w2' = w2) as -> by congruence. clear Hup. simpl in Hne.
  destruct r as [[aid link]|e|code]; simpl; [| |done].
  2: { rewrite <- app_assoc. simpl app. by eapply run_upload_raised. }
  rewrite bind_M_unfold. unfold try_exceptM, os_remove. simpl.
  rewrite bool_decide_eq_true_2 by set_solver. simpl.
  rewrite <- !app_assoc. simpl app.
  destruct (truthy aid) eqn:Haid; simpl.
  - set (w4 := World (({[path]} ∪ files w) ∖ {[path]})
                 (trace w ++ [EvRewrite (clean_title s) d c text; EvCreate path;
                              EvDownload url path true;
                              EvUpload path (Ok (aid, link));
                              EvRemove path])).
    destruct (create_wordpress_post_cases E (clean_title s) text aid w4)
      as (created' & post & Hpost & Hends & _).
    rewrite bind_M_unfold, Hpost.
    replace (match post with
             | Ok a =>
                 (if a
                  then lift (py_print [PStr (clean_title s); PStr category])
                  else lift (py_print [PStr (clean_title s); PStr category]))
                   (World (files w4)
                      (trace w4 ++ [EvPost (clean_title s) text aid created']))
             | Raised e =>
                 (Raised e,
                  World (files w4)
                    (trace w4 ++ [EvPost (clean_title s) text aid created']))
             | Exited c0 =>
                 (Exited c0,
                  World (files w4)
                    (trace w4 ++ [EvPost (clean_title s) text aid created']))
             end)
      with (post ≫= (λ _ : bool, py_print [PStr (clean_title s); PStr category]),
            World (files w4)
              (trace w4 ++ [EvPost (clean_title s) text aid created']))
      by by destruct post as [[]| |].
    cbn [fst snd]. subst w4. cbn [files trace]. rewrite <- !app_assoc. simpl app.
    by eapply run_posted.
  - by eapply run_upload_failed.
Qed.


End Orchestrator.

(** The case analysis that [loop_body_run] gives, with the bookkeeping of
    the history done. *)
Ltac article_cases E category idx article w :=
  destruct (loop_body_run E category idx article w) as
    [e Hf|t' d' c' u' Hf Hu|t' d' c' u' text' e Hf Hu He Hrw
    |t' d' c' url' text' created' Hf Hurl Hprint Hrw path' Hdl
    |t' d' c' url' text' created' Hf Hurl Hrw path' Hdl
    |t' d' c' url' text' e Hf Hurl Hrw path' w2 Hdl Hup
    |t' d' c' url' text' aid' link' Hf Hurl Hrw path' w2 Hdl Hup Haid
    |t' d' c' url' text' aid' link' created' post' Hf Hurl Hrw path' w2 w4
       Hdl Hup Haid Hpost Hends];
  simpl; rewrite ?drop_app_length, ?drop_all.

(** The loop body only ever adds to the history. *)
Lemma loop_body_trace (E : env) (category : pystr) (idx : nat) (article : pyval)
    (w : world) :
  trace (loop_body E category idx article w).2
  = trace w ++ emitted E category idx article w.
Proof.
  unfold emitted.
  article_cases E category idx article w; rewrite ?app_nil_r; done.
Qed.

Lemma article_fields_url (article : pyval) t d c u :
  article_fields article = Ok (t, d, c, u) →
  py_get article (lit "urlToImage") (PStr []) = Ok u.
Proof.
  unfold article_fields. destruct article; simpl; try done.
  destruct (expect_str _); simpl; [|done..]. by intros [= _ _ _ ->].
Qed.

Lemma truthy_not_None (v : pyval) : truthy v = true → v ≠ PNone.
Proof. by intros H ->. Qed.

Lemma loop_body_post_guard (E : env) (category : pystr) (idx : nat)
    (article : pyval) (w : world) :
  post_guard article (emitted E category idx article w).
Proof.
  unfold emitted, post_guard. intros t0 body aid created0.
  article_cases E category idx article w; intros Hin;
    try (by apply elem_of_nil in Hin);
    try (destruct created'; no_such_event Hin);
    try no_such_event Hin.
  repeat (apply elem_of_cons in Hin as [Heq|Hin]; [try done|]);
    [|by apply elem_of_nil in Hin].
  injection Heq as -> -> -> ->.
  exists d', c', url', path', link'. split_and!; try done.
  - by eapply article_fields_url.
  - by apply truthy_not_None.
Qed.

(** What is posted and what was sent to the text service come from the
    article's fields, and the body of the post is the text
    [rewrite_article] returned. *)
Lemma emitted_post (E : env) (category : pystr) (idx : nat) (article : pyval)
    (w : world) t body aid created :
  EvPost t body aid created ∈ emitted E category idx article w →
  ∃ d c u,
    article_fields article = Ok (t, d, c, u)
    ∧ rewrite_article E t d c w
      = (Ok body, World (files w) (trace w ++ [EvRewrite t d c body])).
Proof.
  unfold emitted.
  article_cases E category idx article w; intros Hin;
    try (by apply elem_of_nil in Hin);
    try (destruct created'; no_such_event Hin);
    try no_such_event Hin.
  repeat (apply elem_of_cons in Hin as [Heq|Hin]; [try done|]);
    [|by apply elem_of_nil in Hin].
  injection Heq as -> -> -> ->. eauto.
Qed.

Lemma emitted_rewrite (E : env) (category : pystr) (idx : nat) (article : pyval)
    (w : world) t d c text :
  EvRewrite t d c text ∈ emitted E category idx article w →
  ∃ u, article_fields article = Ok (t, d, c, u).
Proof.
  unfold emitted.
  article_cases E category idx article w; intros Hin;
    try (by apply elem_of_nil in Hin);
    try destruct created'.
  all: apply elem_of_cons in Hin as [Heq|Hin]; [|no_such_event Hin].
  all: injection Heq as -> -> -> ->; eauto.
Qed.

Lemma segmented_nil Q : segmented Q [].
Proof. by exists []. Qed.

Lemma segmented_app Q (d1 d2 : list event) :
  segmented Q d1 → segmented Q d2 → segmented Q (d1 ++ d2).
Proof.
  intros (r1 & -> & H1) (r2 & -> & H2). exists (r1 ++ r2). split.
  - by rewrite fmap_app, concat_app.
  - by apply Forall_app.
Qed.

Lemma segmented_one (Q : pyval * list event → Prop) article (delta : list event) :
  Q (article, delta) → segmented Q delta.
Proof.
  intros H. exists [(article, delta)]. split.
  - simpl. by rewrite app_nil_r.
  - by constructor.
Qed.

(** A loop whose body adds segmented stretches adds a segmented stretch. *)
Lemma for_each_segmented {A} Q (body : A → M unit) (xs : list A) (w : world) :
  (∀ x w, x ∈ xs →
          ∃ delta, trace (body x w).2 = trace w ++ delta ∧ segmented Q delta) →
  ∃ delta, trace (for_each xs body w).2 = trace w ++ delta ∧ segmented Q delta.
Proof.
  revert w. induction xs as [|x xs IH]; intros w Hbody.
  - exists []. split; [by rewrite app_nil_r|apply segmented_nil].
  - simpl. rewrite bind_M_unfold.
    destruct (Hbody x w) as (d1 & Hd1 & Hg1); [apply list_elem_of_here|].
    destruct (body x w) as [[[]|e|code] w1]; simpl in *; eauto.
    destruct (IH w1) as (d2 & Hd2 & Hg2).
    { intros x' w' Hx'. apply Hbody. by apply list_elem_of_further. }
    exists (d1 ++ d2). split; [|by apply segmented_app].
    by rewrite Hd2, Hd1, app_assoc.
Qed.

(** C1: in every run, from every starting point and with whatever the
    collaborators answer, the history that [main] adds is made of the
    events of the articles it processes, one article after the other, and
    among the events of an article a post ([create_wordpress_post] was
    called) is the last of exactly six: the rewrite, the creation of the
    temporary file, the download of the article's non-empty image URL that
    returned [True], the upload that returned the attachment id the post
    carries, which is truthy and so not [None], and the removal of the file.
    In particular no post follows an upload that failed. *)
Theorem post_only_after_media (E : env) (w : world) :
  ∃ runs : list (pyval * list event),
    trace (main E w).2 = trace w ++ concat (runs.*2)
    ∧ Forall (fun r => processed E r ∧ post_guard r.1 r.2) runs.
Proof.
  set (Q := fun r : pyval * list event => processed E r ∧ post_guard r.1 r.2).
  cut (∃ delta, trace (main E w).2 = trace w ++ delta ∧ segmented Q delta).
  { intros (delta & Ht & runs & -> & Hruns). by exists runs. }
  unfold main. rewrite bind_M_unfold. cbn [lift].
  destruct (fetch_top_headlines E) as [headlines|e|code] eqn:Hfetch;
    try (exists []; split; [by rewrite app_nil_r|apply segmented_nil]).
  apply for_each_segmented. intros [category articles] w1 Hbucket.
  rewrite bind_M_unfold. cbn [lift].
  destruct (py_iter articles) as [items|e|code] eqn:Hitems;
    try (exists []; split; [by rewrite app_nil_r|apply segmented_nil]).
  apply for_each_segmented. intros [idx article] w2 Harticle.
  exists (emitted E category idx article w2). split.
  - apply loop_body_trace.
  - apply (segmented_one Q article). split.
    + by exists headlines, category, articles, items, idx, w2.
    + apply loop_body_post_guard.
Qed.

(** An article without an image URL (the field is missing, [None], the
    empty string, or falsy in any other way) leaves the world as it was: no
    call of [rewrite_article], [download_image], [upload_local_image] or
    [create_wordpress_post] is made and no file is touched.  When its
    cleaned title is text that can be printed, the loop body ends normally
    and the loop goes on with the next article. *)
Lemma no_image_no_calls (E : env) (category : pystr) (idx : nat)
    (items : list (pystr * pyval)) (w : world) :
  truthy (default (PStr []) (assoc (lit "urlToImage") items)) = false →
  (loop_body E category idx (PDict items) w).2 = w
  ∧ emitted E category idx (PDict items) w = []
  ∧ (∀ s, py_or (default PNone (assoc (lit "title") items)) (PStr NO_TITLE)
          = PStr s →
          printable_str (clean_title s) = true →
          loop_body E category idx (PDict items) w = (Ok tt, w)
          ∧ ∀ rest,
              for_each ((idx, PDict items) :: rest)
                (fun '(i, a) => loop_body E category i a) w
              = for_each rest (fun '(i, a) => loop_body E category i a) w).
Proof.
  intros Hu.
  assert (Hrun : ∃ o, loop_body E category idx (PDict items) w = (o, w)
                      ∧ (∀ s, py_or (default PNone (assoc (lit "title") items))
                                (PStr NO_TITLE) = PStr s →
                              printable_str (clean_title s) = true →
                              o = Ok tt)).
  { unfold loop_body. run_step. cbn [py_get].
    destruct (py_or _ _) as [ | | | |s| | ]; simpl;
      try (eexists; split; [reflexivity|by intros ? [=]]).
    run_step. rewrite Hu. simpl. eexists. split; [reflexivity|].
    intros s' [= <-] Hs. by rewrite py_print_str, Hs. }
  destruct Hrun as (o & Hrun & Ho).
  split; [by rewrite Hrun|]. split.
  - unfold emitted. rewrite Hrun. simpl. by rewrite drop_all.
  - intros s Ht Hs. rewrite Hrun, (Ho s Ht Hs). split; [done|]. intros rest.
    simpl. rewrite bind_M_unfold, Hrun, (Ho s Ht Hs). done.
Qed.

(** C3, the defect: the skip of an article without an image prints the
    title before it goes on (line 295), and a title that holds a lone
    surrogate cannot be printed.  The calls the claim rules out are indeed
    not made, but [main] ends with [UnicodeEncodeError] instead of
    proceeding: the sample article behind is not processed, though on its
    own it is published. *)
Example skip_fails_on_unprintable_title :
  py_get unprintable_article (lit "urlToImage") (PStr []) = Ok PNone
  ∧ loop_body unprintable_first_env BUSINESS 1 unprintable_article fresh
    = (Raised UnicodeEncodeError, fresh)
  ∧ main unprintable_first_env fresh = (Raised UnicodeEncodeError, fresh)
  ∧ (main (sample_env service_text WriteOk media_accepted) fresh).1 = Ok tt
  ∧ calls is_post
      (trace (main (sample_env service_text WriteOk media_accepted) fresh).2)
    = 1%nat.
Proof. by vm_compute. Qed.



(** C10: when the title of an article is missing, [None] or empty, the
    title the orchestrator works with is "No Title": it is put in place
    before the cleaning, the cleaning leaves it as it is, and every call of
    the text service and every post made for the article carries it, so
    that the post's title is not empty. *)
Theorem missing_title_is_no_title (E : env) (category : pystr) (idx : nat)
    (items : list (pystr * pyval)) (w : world) :
  assoc (lit "title") items = None
  ∨ assoc (lit "title") items = Some PNone
  ∨ assoc (lit "title") items = Some (PStr []) →
  py_or (default PNone (assoc (lit "title") items)) (PStr NO_TITLE) = PStr NO_TITLE
  ∧ clean_title NO_TITLE = NO_TITLE
  ∧ (∀ t d c text,
       EvRewrite t d c text ∈ emitted E category idx (PDict items) w →
       t = NO_TITLE)
  ∧ (∀ t body aid created,
       EvPost t body aid created ∈ emitted E category idx (PDict items) w →
       t = NO_TITLE ∧ t ≠ []).
Proof.
  intros Htitle.
  assert (Hor : py_or (default PNone (assoc (lit "title") items)) (PStr NO_TITLE)
                = PStr NO_TITLE).
  { by destruct Htitle as [-> | [-> | ->]]. }
  assert (Hclean : clean_title NO_TITLE = NO_TITLE) by reflexivity.
  assert (Hf : ∀ t d c u, article_fields (PDict items) = Ok (t, d, c, u) →
                          t = NO_TITLE).
  { unfold article_fields. cbn [py_get]. intros t d c u.
    cbn [mbind outcome_bind]. rewrite Hor. simpl. rewrite Hclean.
    by intros [= <- _ _ _]. }
  split; [done|]. split; [done|]. split.
  - intros t d c text (u & Hu)%emitted_rewrite. eauto.
  - intros t body aid created (d & c & u & Hu & _)%emitted_post.
    rewrite (Hf _ _ _ _ Hu). by split.
Qed.

Lemma missing_title_is_no_title_witness :
  let items := [(lit "title", PNone);
                (lit "urlToImage", PStr (lit "https://img.example.com/fed.png"))] in
  let E := sample_env service_text WriteOk media_accepted in
  (∃ body, emitted E BUSINESS 1 (PDict items) fresh !! 5%nat
           = Some (EvPost NO_TITLE body (PInt 42) true))
  ∧ (∀ t body aid created,
       EvPost t body aid created ∈ emitted E BUSINESS 1 (PDict items) fresh →
       t = NO_TITLE ∧ t ≠ []).
Proof.
  intros items E. split; [eexists; by vm_compute|].
  apply (missing_title_is_no_title E BUSINESS 1 items fresh).
  right. left. reflexivity.
Defined.

(** * The media upload *)

(** What [upload_local_image] returns for the answers it handles: a
    transport failure, a status other than 200 and 201, a JSON object
    without media entries, and a JSON object whose first media entry is an
    object; in the last case it prints the id and the link before it
    returns them. *)
Lemma upload_answer_handled (E : env) (a : http_answer) :
  match a with
  | Transport _ => upload_answer E a = Ok (PNone, PNone)
  | Response status body =>
      if created_or_ok status then
        match body with
        | Some (PDict d) =>
            json_limit E (PDict d) = None →
            match default (PList []) (assoc (lit "media") d) with
            | PList [] => upload_answer E a = Ok (PNone, PNone)
            | PList (PDict m :: _) =>
                let id := default PNone (assoc (lit "id") m) in
                let link := default PNone (assoc (lit "link") m) in
                upload_answer E a
                = if printable id && printable link then Ok (id, link)
                  else Raised UnicodeEncodeError
            | _ => True
            end
        | _ => True
        end
      else upload_answer E a = Ok (PNone, PNone)
  end.
Proof.
  destruct a as [tr|status body]; [done|]. simpl.
  destruct (created_or_ok status); [|done]. simpl.
  destruct body as [[ | | | | | |d]|]; try done. intros Hload.
  simpl. rewrite Hload. simpl.
  destruct (default (PList []) (assoc (lit "media") d))
    as [ | | | | |[|[ | | | | | |m] l]| ]; try done.
  simpl. unfold py_print. simpl. rewrite andb_true_r.
  by destruct (printable _ && printable _).
Qed.

(** C7, the defect: a 200 answer whose body is not JSON makes
    [upload_local_image] raise instead of returning [(None, None)], and so
    does a JSON body of another shape than the expected one: here a media
    list whose first entry is [null], and a media field that is a number. *)
Example upload_raises_on_unexpected_body :
  let path := lit "temp_image_business_1.png" in
  let stored := World {[path]} [] in
  let upload body :=
    (upload_local_image
       (sample_env service_text WriteOk (Response 200 body)) path stored).1 in
  upload None = Raised JSONDecodeError
  ∧ upload (Some (PDict [(lit "media", PList [PNone])])) = Raised AttributeError
  ∧ upload (Some (PDict [(lit "media", PInt 7)])) = Raised TypeError
  ∧ upload (Some (PList [])) = Raised AttributeError.
Proof. by vm_compute. Qed.

(** * The temporary file *)

(** C2, the defect: when [upload_local_image] raises (here on a 200 answer
    whose body is not JSON) the exception leaves [main] before line 318 is
    reached, and the temporary file stays where it is. *)
Example temp_file_left_when_upload_raises :
  let E := sample_env service_text WriteOk (Response 200 None) in
  let path := lit "temp_image_business_1.png" in
  (main E fresh).1 = Raised JSONDecodeError
  ∧ path ∈ files (main E fresh).2
  ∧ trace (main E fresh).2
    = [EvRewrite (lit "Fed Raises Rates") (PStr (lit "The central bank moved."))
         (PStr (lit "Rates went up today."))
         (lit "The Federal Reserve raised rates.");
       EvCreate path;
       EvDownload (lit "https://img.example.com/fed.png") path true;
       EvUpload path (Raised JSONDecodeError)].
Proof. split; [by vm_compute|]. split; [compute_done|by vm_compute]. Qed.

(** The same defect on the other path: a write that fails after the file
    was opened makes [download_image] return [False], and the article is
    skipped with the file left behind. *)
Example temp_file_left_when_write_fails :
  let E := sample_env service_text WriteFails media_accepted in
  let path := lit "temp_image_business_1.png" in
  (main E fresh).1 = Ok tt
  ∧ path ∈ files (main E fresh).2
  ∧ removals path (trace (main E fresh).2) = 0%nat.
Proof. split; [by vm_compute|]. split; [compute_done|by vm_compute]. Qed.

(** What does hold: when the download returned [True] and the loop body
    ended normally (the upload may have failed, and so may the post), the
    temporary file is gone and was removed exactly once. *)
Lemma temp_file_removed_once (E : env) (category : pystr) (idx : nat)
    (article : pyval) (w : world) (url path : pystr) :
  EvDownload url path true ∈ emitted E category idx article w →
  (loop_body E category idx article w).1 = Ok tt →
  (path ∉ files (loop_body E category idx article w).2)
  ∧ removals path (emitted E category idx article w) = 1%nat.
Proof.
  unfold emitted.
  article_cases E category idx article w; intros Hin Hok;
    try discriminate Hok;
    try (by apply elem_of_nil in Hin);
    try (destruct created'; no_such_event Hin).
  all: repeat (apply elem_of_cons in Hin as [Heq|Hin]; [try done|]);
    [|by apply elem_of_nil in Hin].
  all: injection Heq as -> ->.
  all: split; [apply not_elem_of_difference; right; by apply elem_of_singleton|].
  all: simpl; by rewrite bool_decide_eq_true_2.
Qed.

(** * The headline source *)

Section Headlines.
Variable E : env.

(** A failed request leaves the results as they are. *)
Lemma fetch_block_failed (key : pystr) (results : list (pystr * pyval)) :
  request_fails (news E key) = true →
  fetch_block E key results = Ok results.
Proof.
  unfold fetch_block, request_fails.
  destruct (news E key) as [[]|status body]; simpl; try done.
  unfold raise_for_status.
  destruct ((400 <=? status)%Z && (status <? 600)%Z); simpl; [done|].
  by destruct body.
Qed.

(** A block either leaves the results alone or stores what it fetched, a
    value that has a length. *)
Lemma fetch_block_shape (key : pystr) (results r : list (pystr * pyval)) :
  fetch_block E key results = Ok r →
  r = results ∨ ∃ v n, py_len v = Ok n ∧ r = dict_set key v results.
Proof.
  assert (Hkept : ∀ e, (if is_RequestException e then mret results else Raised e)
                       = Ok r → r = results).
  { intros e. destruct (is_RequestException e); [|done]. by intros [= <-]. }
  assert (Hkept' : mret results = Ok r → r = results) by by intros [= <-].
  unfold fetch_block, try_except.
  destruct (news E key) as [tr|status body]; simpl; [left; eauto|].
  destruct (raise_for_status status) as [[]|e|]; simpl; [|left; eauto|done].
  destruct (resp_json E body) as [data|e|]; simpl; [|left; eauto|done].
  destruct (py_get data (lit "articles") (PList [])) as [v|e|]; simpl;
    [|left; eauto|done].
  destruct (py_len v) as [n|e|] eqn:Hn; simpl; [|left; eauto|done].
  intros [= <-]. right. eauto.
Qed.

(** With an empty bucket the value stored, if one is stored, has length
    zero. *)
Lemma fetch_block_empty (key : pystr) (results : list (pystr * pyval)) :
  bucket_empty E (news E key) = true →
  fetch_block E key results = Ok results
  ∨ ∃ v, py_len v = Ok 0%nat ∧ fetch_block E key results = Ok (dict_set key v results).
Proof.
  unfold bucket_empty. intros [Hfail|Hempty]%orb_true_iff.
  { left. by apply fetch_block_failed. }
  unfold fetch_block, raise_for_status.
  destruct (news E key) as [|status [[ | | | | | |d]|]]; try done. simpl.
  destruct (json_limit E (PDict d)); [done|].
  destruct ((400 <=? status)%Z && (status <? 600)%Z); simpl; [by left|].
  destruct (default (PList []) (assoc (lit "articles") d))
    as [ | | | |[]|[]|[]] eqn:Hd; try done; right; eexists; split;
    try reflexivity; simpl; done.
Qed.

Lemma total_len_zero (results : list (pystr * pyval)) :
  Forall (fun kv => py_len kv.2 = Ok 0%nat) results →
  total_len (results.*2) = Ok 0%nat.
Proof.
  induction 1 as [|[k v] results Hv _ IH]; [done|].
  cbn [fmap list_fmap snd total_len] in *. by rewrite Hv, IH.
Qed.

Lemma dict_set_zero (key : pystr) (v : pyval) (results : list (pystr * pyval)) :
  py_len v = Ok 0%nat →
  Forall (fun kv => py_len kv.2 = Ok 0%nat) results →
  Forall (fun kv => py_len kv.2 = Ok 0%nat) (dict_set key v results).
Proof.
  intros Hv. induction 1 as [|[k v'] results Hv' Hrest IH]; simpl.
  - by repeat constructor.
  - case_bool_decide; by constructor.
Qed.

Lemma fetch_block_keeps_zero (key : pystr) (results : list (pystr * pyval)) :
  bucket_empty E (news E key) = true →
  Forall (fun kv => py_len kv.2 = Ok 0%nat) results →
  ∃ r, fetch_block E key results = Ok r
       ∧ Forall (fun kv => py_len kv.2 = Ok 0%nat) r.
Proof.
  intros Hempty Hres.
  destruct (fetch_block_empty key results Hempty) as [->|(v & Hv & ->)].
  - eauto.
  - eexists. split; [done|]. by apply dict_set_zero.
Qed.

Lemma fetch_block_empty_answer (key : pystr) (results : list (pystr * pyval)) :
  json_limit E (PDict [(lit "articles", PList [])]) = None →
  fetch_block (with_news E key EMPTY_ANSWER) key results
  = Ok (dict_set key (PList []) results).
Proof.
  intros Hload. unfold fetch_block. simpl.
  rewrite bool_decide_eq_true_2 by done. simpl. by rewrite Hload.
Qed.

Lemma fetch_block_other (key key' : pystr) (a : http_answer)
    (results : list (pystr * pyval)) :
  key' ≠ key →
  fetch_block (with_news E key a) key' results = fetch_block E key' results.
Proof.
  intros Hne. unfold fetch_block. simpl. by rewrite bool_decide_eq_false_2.
Qed.

End Headlines.






(** * The extension of the temporary file *)

Lemma rfind_from_range (i : Z) (c : N) (s : pystr) :
  rfind_from i c s = (-1)%Z
  ∨ (i ≤ rfind_from i c s < i + Z.of_nat (length s))%Z.
Proof.
  revert i. induction s as [|x s IH]; intros i; [by left|].
  cbn [rfind_from]. destruct (IH (i + 1)%Z) as [->|Hr].
  - simpl. destruct (x =? c); [right|by left]. simpl length. lia.
  - destruct (Z.leb_spec 0 (rfind_from (i + 1) c s)).
    + right. simpl length. lia.
    + destruct (x =? c); [right|by left]. simpl length. lia.
Qed.

Ltac leb_true z :=
  repeat (rewrite (proj2 (Z.leb_le 0 z)) by lia; cbv iota).

Lemma rfind_from_shift (i : Z) (c : N) (s : pystr) :
  (0 ≤ i)%Z →
  rfind_from i c s
  = if (0 <=? rfind c s)%Z then (i + rfind c s)%Z else (-1)%Z.
Proof.
  unfold rfind. revert i. induction s as [|x s IH]; intros i Hi; [done|].
  cbn [rfind_from].
  pose proof (IH (i + 1)%Z ltac:(lia)) as H1.
  pose proof (IH (0 + 1)%Z ltac:(lia)) as H2. clear IH.
  rewrite H1, H2. clear H1 H2.
  destruct (rfind_from_range 0 c s) as [Hr|Hr].
  - rewrite Hr. simpl. destruct (x =? c); simpl; [f_equal; lia|done].
  - set (r := rfind_from 0 c s) in *.
    leb_true r. leb_true (i + 1 + r)%Z. leb_true (0 + 1 + r)%Z. lia.
Qed.

Lemma rfind_range (c : N) (s : pystr) :
  rfind c s = (-1)%Z ∨ (0 ≤ rfind c s < Z.of_nat (length s))%Z.
Proof. apply (rfind_from_range 0 c s). Qed.

Lemma rfind_app (c : N) (a b : pystr) :
  rfind c (a ++ b)
  = if (0 <=? rfind c b)%Z then (Z.of_nat (length a) + rfind c b)%Z
    else rfind c a.
Proof.
  induction a as [|x a IH].
  - simpl. destruct (rfind_range c b) as [->|Hr]; [done|].
    leb_true (rfind c b). lia.
  - unfold rfind at 1 3. cbn [app rfind_from].
    rewrite !(rfind_from_shift (0 + 1)) by lia. rewrite IH. clear IH.
    simpl length.
    set (rb := rfind c b). set (ra := rfind c a).
    destruct (rfind_range c b) as [Hb|Hb]; fold rb in Hb.
    + rewrite Hb. simpl.
      change (rfind c (x :: a)) with (rfind_from 0 c (x :: a)).
      cbn [rfind_from]. by rewrite (rfind_from_shift (0 + 1)) by lia.
    + leb_true rb. leb_true (Z.of_nat (length a) + rb)%Z.
      leb_true (0 + 1 + (Z.of_nat (length a) + rb))%Z.
      change (rfind_from 0 c b) with rb. lia.
Qed.

Lemma rfind_head (c : N) (s : pystr) : (0 ≤ rfind c (c :: s))%Z.
Proof.
  unfold rfind. cbn [rfind_from]. rewrite N.eqb_refl.
  destruct (rfind_from_range (0 + 1) c s) as [->|Hr]; [done|].
  destruct (Z.leb_spec 0 (rfind_from (0 + 1) c s)); lia.
Qed.

Lemma rfind_lookup (c : N) (s : pystr) :
  (0 ≤ rfind c s)%Z → s !! Z.to_nat (rfind c s) = Some c.
Proof.
  induction s as [|x s IH]; [done|].
  change (x :: s) with ([x] ++ s). rewrite rfind_app.
  destruct (rfind_range c s) as [Hs|Hs].
  - rewrite Hs. simpl. unfold rfind. simpl.
    destruct (N.eqb_spec x c) as [->|]; [done|lia].
  - leb_true (rfind c s). intros _.
    replace (Z.to_nat (Z.of_nat (length [x]) + rfind c s))
      with (S (Z.to_nat (rfind c s))) by (simpl; lia).
    simpl. apply IH. lia.
Qed.

(** [splitext] finds the extension in what stands behind the last slash,
    so a prefix that ends in front of a slash does not matter. *)
Lemma splitext_behind_slash (pre rest : pystr) :
  (splitext (pre ++ SLASH :: rest)).2 = (splitext (SLASH :: rest)).2.
Proof.
  unfold splitext. rewrite !rfind_app.
  set (path := SLASH :: rest).
  pose proof (rfind_head SLASH rest) as Hsep. fold path in Hsep.
  set (sep := rfind SLASH path) in *.
  leb_true sep.
  destruct (rfind_range DOT path) as [Hdot|Hdot].
  - rewrite Hdot. change (0 <=? -1)%Z with false. cbv iota.
    destruct (rfind_range DOT pre) as [Hpre|Hpre].
    + rewrite Hpre.
      destruct (Z.ltb_spec (Z.of_nat (length pre) + sep) (-1)); [lia|].
      by destruct (Z.ltb_spec sep (-1)); [lia|].
    + destruct (Z.ltb_spec (Z.of_nat (length pre) + sep) (rfind DOT pre)); [lia|].
      by destruct (Z.ltb_spec sep (-1)); [lia|].
  - set (dot := rfind DOT path) in *. leb_true dot.
    destruct (Z.ltb_spec sep dot) as [Hlt|Hge].
    + destruct (Z.ltb_spec (Z.of_nat (length pre) + sep)
                  (Z.of_nat (length pre) + dot)); [|lia].
      unfold slice.
      replace (Z.to_nat (Z.of_nat (length pre) + sep + 1))
        with (length pre + Z.to_nat (sep + 1))%nat by lia.
      replace (Z.to_nat (Z.of_nat (length pre) + dot))
        with (length pre + Z.to_nat dot)%nat by lia.
      rewrite !drop_app_add.
      replace (Z.of_nat (length pre) + dot - (Z.of_nat (length pre) + sep + 1))%Z
        with (dot - (sep + 1))%Z by lia.
      by destruct (existsb _ _).
    + by destruct (Z.ltb_spec (Z.of_nat (length pre) + sep)
                     (Z.of_nat (length pre) + dot)); [lia|].
Qed.

Lemma until_all (stop : N → bool) (u : pystr) :
  (∀ c, c ∈ u → stop c = false) → until stop u = u.
Proof.
  induction u as [|c u IH]; intros H; [done|]. simpl.
  rewrite (H c) by apply list_elem_of_here. f_equal.
  apply IH. intros c' Hc'. apply H. by apply list_elem_of_further.
Qed.

Lemma after_scheme_mark_suffix (s r : pystr) :
  after_scheme_mark s = Some r → r `suffix_of` s.
Proof.
  induction s as [|c1 s IH]; [done|]. cbn [after_scheme_mark].
  destruct s as [|c2 [|c3 s']]; try done.
  destruct ((c1 =? COLON) && (c2 =? SLASH) && (c3 =? SLASH)).
  - intros [= <-]. by exists [c1; c2; c3].
  - intros H. by apply suffix_cons_r, IH.
Qed.

Lemma from_suffix (stop : N → bool) (s : pystr) : from stop s `suffix_of` s.
Proof.
  induction s as [|c s IH]; [done|]. simpl.
  destruct (stop c); [done|]. by apply suffix_cons_r.
Qed.

Lemma from_head (stop : N → bool) (s : pystr) c r :
  from stop s = c :: r → stop c = true.
Proof.
  induction s as [|x s IH]; [done|]. simpl.
  destruct (stop x) eqn:Hx; [|done]. by intros [= <- _].
Qed.

(** C9, counterexample: with a query string behind the file name the code
    does not arrive at the extension of the URL's path.  [os.path.splitext]
    is applied to the whole URL, finds ".png?w=1200", which is longer than
    five characters, and the file is named ".jpg". *)
Lemma query_string_spoils_extension :
  temp_ext (lit "https://img.example.com/fed.png?w=1200") = lit ".jpg"
  ∧ spec_temp_ext (lit "https://img.example.com/fed.png?w=1200") = lit ".png"
  ∧ temp_ext (lit "https://img.example.com/fed.png?w=1200")
    ≠ spec_temp_ext (lit "https://img.example.com/fed.png?w=1200").
Proof. split; [by vm_compute|]. split; [by vm_compute|]. vm_compute. discriminate. Qed.

(** C9, as amended: for an image URL without "?" and "#" whose path is not
    empty, the extension of the temporary file is the extension of the
    URL's path when that one is not empty and at most five characters long
    with its dot, and ".jpg" otherwise.  For every image URL the extension
    is ".jpg" or else the last characters of the whole URL string, at most
    five, the first of them a dot. *)
Theorem temp_ext_of_url (u : pystr) :
  (QUESTION ∉ u → HASH ∉ u → spec_url_path u ≠ [] →
   temp_ext u = spec_temp_ext u)
  ∧ (temp_ext u = lit ".jpg"
     ∨ (temp_ext u `suffix_of` u
        ∧ (length (temp_ext u) ≤ 5)%nat
        ∧ head (temp_ext u) = Some DOT)).
Proof.
  split.
  - intros Hq Hh Hpath. unfold temp_ext, spec_temp_ext.
    cut ((splitext u).2 = (splitext (spec_url_path u)).2); [by intros ->|].
    assert (Hstop : ∀ c, c ∈ u → (c =? QUESTION) || (c =? HASH) = false).
    { intros c Hc.
      destruct (N.eqb_spec c QUESTION) as [Heq|]; [by rewrite Heq in Hc|].
      destruct (N.eqb_spec c HASH) as [Heq|]; [by rewrite Heq in Hc|done]. }
    unfold spec_url_path in *. rewrite (until_all _ u Hstop) in *.
    set (rest := default u (after_scheme_mark u)) in *.
    assert (Hrest : rest `suffix_of` u).
    { unfold rest. destruct (after_scheme_mark u) as [r|] eqn:Hr; [|done].
      by apply after_scheme_mark_suffix. }
    destruct (from (λ c, c =? SLASH) rest) as [|c path] eqn:Hfrom; [done|].
    pose proof (from_head _ _ _ _ Hfrom) as Hc.
    apply N.eqb_eq in Hc as ->.
    assert (Hsuf : (SLASH :: path) `suffix_of` u).
    { etrans; [|exact Hrest]. rewrite <- Hfrom. apply from_suffix. }
    destruct Hsuf as [pre ->]. apply splitext_behind_slash.
  - unfold temp_ext, splitext.
    set (sep := rfind SLASH u). set (dot := rfind DOT u).
    destruct (Z.ltb_spec sep dot) as [Hlt|]; [|by left].
    destruct (existsb _ _); [|by left]. cbn [snd].
    destruct (bool_decide _); [by left|]. simpl.
    destruct (Nat.ltb_spec 5 (length (drop (Z.to_nat dot) u))); [by left|].
    right. split; [apply suffix_drop|]. split; [done|].
    rewrite head_lookup, lookup_drop, Nat.add_0_r.
    apply rfind_lookup. fold dot.
    destruct (rfind_range SLASH u) as [Hs|Hs]; fold sep in Hs; lia.
Qed.

Lemma temp_ext_of_url_witness :
  temp_ext (lit "https://img.example.com/photos/fed.jpeg")
  = spec_temp_ext (lit "https://img.example.com/photos/fed.jpeg")
  ∧ temp_ext (lit "https://img.example.com/photos/fed.jpeg") = lit ".jpeg".
Proof.
  split; [|by vm_compute].
  apply (temp_ext_of_url (lit "https://img.example.com/photos/fed.jpeg")).
  - compute_done.
  - compute_done.
  - by vm_compute.
Defined.

(** * Further properties of the title cleaning *)

Lemma re_sub_sublist_aux (n : nat) (s : pystr) :
  (length s ≤ n)%nat → re_sub s `sublist_of` s.
Proof.
  revert s. induction n as [|n IH]; intros s Hn.
  - destruct s; [by simp re_sub|simpl in Hn; lia].
  - destruct s as [|c s]; [by simp re_sub|]. rewrite re_sub_cons.
    destruct (match_len (c :: s)) as [k|].
    + apply sublist_cons. etrans; [apply IH|apply sublist_drop].
      rewrite length_drop. simpl in Hn. lia.
    + apply sublist_skip, IH. simpl in Hn. lia.
Qed.

(** X1: the cleaning only deletes characters: the cleaned title is what is
    left of the title after some of its characters are taken out, in the
    same order, and so never longer than the title. *)
Theorem clean_title_sublist (t : pystr) :
  clean_title t `sublist_of` t ∧ (length (clean_title t) ≤ length t)%nat.
Proof.
  assert (H : clean_title t `sublist_of` t).
  { unfold clean_title. by apply (re_sub_sublist_aux (length t)). }
  split; [done|]. by apply sublist_length.
Qed.

Lemma cut_no_separator (s : pystr) : has_separator (cut s) = false.
Proof.
  induction s as [|c s IH]; [done|]. cbn [cut].
  destruct (sep3 (c :: s)) eqn:Hsep; [done|]. cbn [has_separator].
  rewrite IH, orb_false_r.
  destruct (sep3 (c :: cut s)) eqn:Hsep'; [|done].
  rewrite (sep3_prefix (c :: cut s) (c :: s)) in Hsep; [done| |done].
  apply prefix_cons, cut_prefix.
Qed.

Lemma cut_unchanged (s : pystr) : has_separator s = false → cut s = s.
Proof.
  induction s as [|c s IH]; [done|]. cbn [cut has_separator].
  intros [-> Hs]%orb_false_iff. f_equal. by apply IH.
Qed.

(** X2: on a title without line feed the cleaning does its job: no
    separator (white space, dash, white space) is left anywhere in the
    cleaned title, the cleaned title is the beginning of the title, and a
    title that has no separator comes back as it is. *)
Theorem clean_title_removes_separators (t : pystr) :
  LF ∉ t →
  has_separator (clean_title t) = false
  ∧ clean_title t `prefix_of` t
  ∧ (has_separator t = false → clean_title t = t).
Proof.
  intros Ht. unfold clean_title. rewrite (re_sub_single_line t Ht).
  split; [apply cut_no_separator|]. split; [apply cut_prefix|].
  apply cut_unchanged.
Qed.

Lemma clean_title_removes_separators_witness :
  has_separator (lit "Apple - Bloomberg - Markets") = true
  ∧ has_separator (clean_title (lit "Apple - Bloomberg - Markets")) = false
  ∧ clean_title (lit "Apple - Bloomberg - Markets")
    `prefix_of` lit "Apple - Bloomberg - Markets".
Proof.
  split; [reflexivity|].
  destruct (clean_title_removes_separators (lit "Apple - Bloomberg - Markets"))
    as (Hnone & Hprefix & _); [compute_done|].
  by split.
Defined.

(** * Further properties of the temporary file's name *)

Lemma rfind_after (c : N) (s : pystr) (j : nat) :
  (rfind c s < Z.of_nat j)%Z → s !! j ≠ Some c.
Proof.
  revert j. induction s as [|x s IH]; intros j; [done|].
  change (x :: s) with ([x] ++ s). rewrite rfind_app.
  destruct (rfind_range c s) as [Hs|Hs].
  - rewrite Hs. change (0 <=? -1)%Z with false. cbv iota.
    unfold rfind. cbn [rfind_from].
    change (0 <=? rfind_from (0 + 1) c [])%Z with false. cbv iota.
    destruct (N.eqb_spec x c) as [->|Hx]; intros Hj; simpl in Hj.
    + destruct j as [|j]; [lia|]. simpl. apply IH. rewrite Hs. lia.
    + destruct j as [|j]; simpl; [congruence|]. apply IH. rewrite Hs. lia.
  - leb_true (rfind c s). simpl length. intros Hj.
    destruct j as [|j]; [lia|]. simpl. apply IH. lia.
Qed.

Lemma rfind_absent (c : N) (s : pystr) : c ∉ s → rfind c s = (-1)%Z.
Proof.
  intros Hc. destruct (rfind_range c s) as [|Hr]; [done|].
  exfalso. apply Hc. eapply list_elem_of_lookup_2, rfind_lookup. lia.
Qed.

Lemma not_in_drop_after (c : N) (s : pystr) (n : nat) :
  (rfind c s < Z.of_nat n)%Z → c ∉ drop n s.
Proof.
  intros Hn [i Hi]%list_elem_of_lookup. rewrite lookup_drop in Hi.
  by eapply (rfind_after c s (n + i)); [lia|].
Qed.

Lemma rfind_at_last (c : N) (a b : pystr) :
  c ∉ b → rfind c (a ++ c :: b) = Z.of_nat (length a).
Proof.
  intros Hb. rewrite rfind_app.
  assert (rfind c (c :: b) = 0%Z) as ->.
  { change (c :: b) with ([c] ++ b). rewrite rfind_app, (rfind_absent c b Hb).
    change (0 <=? -1)%Z with false. cbv iota.
    unfold rfind. simpl. by rewrite N.eqb_refl. }
  simpl. lia.
Qed.

(** The extension is a dot and a short tail without dot and slash. *)
Lemma temp_ext_dot_tail (url : pystr) :
  ∃ x, temp_ext url = DOT :: x
       ∧ (length x ≤ 4)%nat ∧ (DOT ∉ x) ∧ (SLASH ∉ x).
Proof.
  assert (Hjpg : ∃ x, lit ".jpg" = DOT :: x
                      ∧ (length x ≤ 4)%nat ∧ (DOT ∉ x) ∧ (SLASH ∉ x)).
  { exists (lit "jpg"). split; [done|]. split; [compute_done|].
    split; compute_done. }
  unfold temp_ext, splitext.
  set (sep := rfind SLASH url). set (dot := rfind DOT url).
  destruct (Z.ltb_spec sep dot) as [Hlt|]; [|done].
  destruct (existsb _ _); [|done]. cbn [snd].
  destruct (bool_decide _); [done|]. simpl.
  destruct (Nat.ltb_spec 5 (length (drop (Z.to_nat dot) url))) as [|Hlen]; [done|].
  assert (Hdot : (0 ≤ dot)%Z).
  { destruct (rfind_range SLASH url) as [Hs|Hs]; fold sep in Hs; lia. }
  pose proof (rfind_lookup DOT url Hdot) as Hat. fold dot in Hat.
  rewrite (drop_S _ _ _ Hat) in *. simpl in Hlen.
  eexists. split; [done|]. split; [lia|]. split.
  - apply not_in_drop_after. fold dot. lia.
  - apply not_in_drop_after. fold sep. lia.
Qed.

(** X3: whatever the image URL, the extension chosen for the temporary
    file is a dot followed by at most four characters, none of them a dot
    or a slash. *)
Theorem temp_ext_shape (url : pystr) :
  ∃ x, temp_ext url = DOT :: x
       ∧ (length x ≤ 4)%nat ∧ (DOT ∉ x) ∧ (SLASH ∉ x).
Proof.
  destruct (temp_ext_dot_tail url) as (x & Hext & Hlen & Hdot & Hslash).
  exists x. by repeat split.
Qed.

Lemma pretty_N_char_digit (x : N) : is_digit (N_of_ascii (pretty_N_char x)) = true.
Proof. unfold pretty_N_char. by repeat case_match. Qed.

Lemma pretty_N_go_digits (x : N) (s : string) :
  Forall (fun c => is_digit c = true) (lit s) →
  Forall (fun c => is_digit c = true) (lit (pretty_N_go x s)).
Proof.
  revert s. induction (N.lt_wf_0 x) as [x _ IH]; intros s Hs.
  destruct (decide (x = 0)) as [->|Hx]; [by rewrite pretty_N_go_0|].
  rewrite pretty_N_go_step by lia. apply IH.
  - apply N.div_lt; lia.
  - cbn [lit]. constructor; [apply pretty_N_char_digit|done].
Qed.

(** The decimal numeral of an index: digits only, and at least one. *)
Lemma pretty_nat_digits (n : nat) :
  Forall (fun c => is_digit c = true) (lit (pretty n)) ∧ lit (pretty n) ≠ [].
Proof.
  unfold pretty, pretty_nat, pretty, pretty_N.
  destruct (decide (N.of_nat n = 0)) as [|Hn].
  { split; [by repeat constructor|done]. }
  split; [apply pretty_N_go_digits; constructor|].
  rewrite pretty_N_go_step by lia.
  intros Hnil.
  pose proof (pretty_N_go_digits (N.of_nat n `div` 10)
                (String (pretty_N_char (N.of_nat n `mod` 10)) "")) as H.
  assert (∀ x s, lit (pretty_N_go x s) = [] → lit s = []) as Hgo.
  { clear. intros x. induction (N.lt_wf_0 x) as [x _ IH]; intros s.
    destruct (decide (x = 0)) as [->|Hx]; [by rewrite pretty_N_go_0|].
    rewrite pretty_N_go_step by lia. intros Hnil%IH; [done|].
    apply N.div_lt; lia. }
  by apply Hgo in Hnil.
Qed.

Lemma lit_inj (s1 s2 : string) : lit s1 = lit s2 → s1 = s2.
Proof.
  revert s2. induction s1 as [|a s1 IH]; intros [|b s2]; cbn [lit]; try done.
  intros [= Hab Hs]. f_equal; [|by apply IH].
  rewrite <- (ascii_N_embedding a), <- (ascii_N_embedding b). by rewrite Hab.
Qed.

Lemma digits_without (c : N) (d : pystr) :
  is_digit c = false → Forall (fun c => is_digit c = true) d → c ∉ d.
Proof.
  intros Hc Hd Hin. rewrite Forall_forall in Hd. apply Hd in Hin. congruence.
Qed.

(** X4: the name of the temporary file keeps the extension it was given:
    what [upload_local_image] reads off the file name is the extension
    [main] chose from the URL, whatever the bucket and the index are.  So an
    image whose URL offers no short extension is sent as "image/jpeg". *)
Theorem temp_name_keeps_ext (category : pystr) (idx : nat) (url : pystr) :
  (splitext (basename (temp_name category idx (temp_ext url)))).2 = temp_ext url
  ∧ (temp_ext url = lit ".jpg" →
     content_type_of (basename (temp_name category idx (temp_ext url)))
     = lit "image/jpeg").
Proof.
  cut ((splitext (basename (temp_name category idx (temp_ext url)))).2
       = temp_ext url).
  { intros H. split; [done|]. intros Hjpg.
    unfold content_type_of. rewrite H, Hjpg. reflexivity. }
  destruct (temp_ext_dot_tail url) as (x & -> & _ & Hdot & Hslash).
  destruct (pretty_nat_digits idx) as [Hdig _].
  unfold temp_name.
  set (A := lit "temp_image_" ++ category).
  set (U := lit "_" ++ lit (pretty idx)).
  replace (lit "temp_image_" ++ category ++ lit "_" ++ lit (pretty idx) ++ DOT :: x)
    with (A ++ U ++ DOT :: x) by (unfold A, U; by rewrite <- !app_assoc).
  assert (HUs : SLASH ∉ U).
  { unfold U. apply not_elem_of_app. split; [compute_done|].
    by apply digits_without. }
  assert (HUd : DOT ∉ U).
  { unfold U. apply not_elem_of_app. split; [compute_done|].
    by apply digits_without. }
  assert (Hrest : SLASH ∉ U ++ DOT :: x).
  { apply not_elem_of_app. split; [done|].
    apply not_elem_of_cons. split; [done|done]. }
  unfold basename. rewrite rfind_app, (rfind_absent _ _ Hrest).
  change (0 <=? -1)%Z with false. cbv iota.
  set (k := Z.to_nat (rfind SLASH A + 1)).
  assert (Hk : (k ≤ length A)%nat).
  { unfold k. destruct (rfind_range SLASH A); lia. }
  rewrite drop_app_le by done.
  set (Q := drop k A).
  assert (HQ : SLASH ∉ Q).
  { apply not_in_drop_after. unfold k. destruct (rfind_range SLASH A); lia. }
  unfold splitext.
  rewrite (rfind_absent SLASH (Q ++ U ++ DOT :: x))
    by (apply not_elem_of_app; by split).
  rewrite (assoc_L (++) Q U), (rfind_at_last DOT (Q ++ U) x Hdot).
  destruct (Z.ltb_spec (-1) (Z.of_nat (length (Q ++ U)))); [|lia].
  unfold slice. change (Z.to_nat (-1 + 1)) with 0%nat. rewrite drop_0.
  replace (Z.to_nat (Z.of_nat (length (Q ++ U)) - (-1 + 1)))
    with (length (Q ++ U)) by lia.
  rewrite take_app_length, Nat2Z.id, drop_app_length.
  rewrite existsb_app. unfold U at 1. cbn [lit app existsb].
  by rewrite orb_true_r.
Qed.

Lemma temp_name_keeps_ext_witness :
  content_type_of
    (basename (temp_name BUSINESS 3
                 (temp_ext (lit "https://img.example.com/fed.png?w=1200"))))
  = lit "image/jpeg".
Proof.
  apply (temp_name_keeps_ext BUSINESS 3
           (lit "https://img.example.com/fed.png?w=1200")).
  by vm_compute.
Defined.

Lemma split_at_first (c : N) (a b x y : pystr) :
  c ∉ a → c ∉ b → a ++ c :: x = b ++ c :: y → a = b.
Proof.
  revert b. induction a as [|h a IH]; intros [|h' b] Ha Hb; simpl.
  - done.
  - intros [= <- _]. exfalso. apply Hb, list_elem_of_here.
  - intros [= -> _]. exfalso. apply Ha, list_elem_of_here.
  - intros [= -> H]. f_equal. apply IH; [| |done].
    + intros ?. apply Ha. by apply list_elem_of_further.
    + intros ?. apply Hb. by apply list_elem_of_further.
Qed.

(** X5: two articles never share a temporary file: within a bucket
    different indices give different names, and the three buckets give
    different names whatever the indices, for all image URLs. *)
Theorem temp_names_distinct (c1 c2 : pystr) (i j : nat) (u1 u2 : pystr) :
  c1 ∈ [FINANCE; BUSINESS; TECH] →
  c2 ∈ [FINANCE; BUSINESS; TECH] →
  (c1, i) ≠ (c2, j) →
  temp_name c1 i (temp_ext u1) ≠ temp_name c2 j (temp_ext u2).
Proof.
  intros H1 H2 Hne Heq.
  destruct (temp_ext_dot_tail u1) as (x1 & Hx1 & _).
  destruct (temp_ext_dot_tail u2) as (x2 & Hx2 & _).
  rewrite Hx1, Hx2 in Heq. unfold temp_name in Heq.
  apply app_inv_head in Heq.
  assert (Hsame : c1 = c2 → False).
  { intros <-. apply app_inv_head, app_inv_head in Heq.
    apply split_at_first in Heq.
    - apply lit_inj, (inj pretty) in Heq. by subst.
    - apply digits_without; [done|]. apply pretty_nat_digits.
    - apply digits_without; [done|]. apply pretty_nat_digits. }
  repeat (apply elem_of_cons in H1 as [->|H1]);
    [| | |by apply elem_of_nil in H1];
    repeat (apply elem_of_cons in H2 as [->|H2]);
    try (by apply elem_of_nil in H2); try (by apply Hsame);
    apply (f_equal head) in Heq; by compute in Heq.
Qed.

Lemma temp_names_distinct_witness :
  temp_name FINANCE 1 (temp_ext (lit "https://a.example/x.png"))
  ≠ temp_name FINANCE 2 (temp_ext (lit "https://a.example/x.png"))
  ∧ temp_name FINANCE 1 (temp_ext (lit "https://a.example/x.png"))
    ≠ temp_name TECH 1 (temp_ext (lit "https://a.example/x.png")).
Proof.
  split.
  - apply (temp_names_distinct FINANCE FINANCE 1 2); [compute_done..|].
    by intros [= ?].
  - apply (temp_names_distinct FINANCE TECH 1 1); [compute_done..|].
    by intros [= ?].
Defined.

(** * Further properties of the stage functions *)

(** X6: [download_image] raises nothing but [UnicodeEncodeError], and that
    only on a URL that cannot be printed (line 181, in the handler); on a
    URL that can be printed it always returns.  It returns [True] exactly
    when the URL is not empty, the image host answers 200, the file is
    written and its name can be printed; the file is then there.  With an
    empty URL nobody is asked and nothing is written.  No file other than
    the one named is ever touched. *)
Theorem download_image_spec (E : env) (url path : pystr) (w : world) :
  (∀ e, (download_image E url path w).1 = Raised e →
        e = UnicodeEncodeError ∧ printable_str url = false)
  ∧ no_exit (download_image E url path w).1
  ∧ (printable_str url = true → ∃ ok, (download_image E url path w).1 = Ok ok)
  ∧ ((download_image E url path w).1 = Ok true ↔
     url ≠ []
     ∧ (∃ body, image_get E (trace w) url = Response 200 body)
     ∧ disk E (trace w) path = WriteOk
     ∧ printable_str path = true)
  ∧ ((download_image E url path w).1 = Ok true →
     path ∈ files (download_image E url path w).2)
  ∧ (url = [] →
     download_image E url path w
     = (Ok false, World (files w) (trace w ++ [EvDownload url path false])))
  ∧ (∀ p, p ≠ path →
          p ∈ files (download_image E url path w).2 ↔ p ∈ files w).
Proof.
  destruct (decide (url = [])) as [->|Hurl].
  { unfold download_image. rewrite bool_decide_eq_true_2 by done.
    run_step. simpl. split_and!; try done.
    - by eexists.
    - split; [done|by intros [? _]]. }
  assert (Hother : ∀ (created : bool) p, p ≠ path →
            p ∈ (if created then {[path]} ∪ files w else files w) ↔ p ∈ files w).
  { intros [] p Hp; [|done]. rewrite elem_of_union, elem_of_singleton.
    split; [by intros [?|?]|by right]. }
  assert (Htrue : (download_image E url path w).1 = Ok true ↔
                  (∃ body, image_get E (trace w) url = Response 200 body)
                  ∧ disk E (trace w) path = WriteOk
                  ∧ printable_str path = true).
  { unfold download_image. rewrite bool_decide_eq_false_2 by done.
    rewrite bind_M_unfold. unfold try_exceptM. run_step.
    assert (Hhandler : ∀ w',
      (lift (py_print [PStr url]) ≫= λ _ : unit, (mret false : M bool)) w'
      = (if printable_str url then Ok false else Raised UnicodeEncodeError, w')).
    { intros w'. rewrite bind_M_unfold. cbn [lift]. rewrite py_print_str.
      by destruct (printable_str url). }
    destruct (image_get E (trace w) url) as [tr|status body] eqn:Hget; simpl.
    { rewrite Hhandler. destruct (printable_str url); simpl;
        (split; [done|by intros ([? ?] & _)]). }
    destruct (Z.eqb_spec status 200) as [->|Hstatus]; simpl.
    2: { split; [done|]. by intros ([? [= ?]] & _). }
    rewrite bind_M_unfold. unfold open_write.
    destruct (disk E (trace w) path) eqn:Hdisk; simpl.
    - rewrite bind_M_unfold. cbn [lift]. rewrite py_print_str.
      destruct (printable_str path); simpl.
      + split; [eauto|done].
      + rewrite Hhandler. destruct (printable_str url); simpl;
          (split; [done|by intros (_ & _ & [=])]).
    - rewrite Hhandler. destruct (printable_str url); simpl;
        (split; [done|by intros (_ & [=] & _)]).
    - rewrite Hhandler. destruct (printable_str url); simpl;
        (split; [done|by intros (_ & [=] & _)]). }
  destruct (download_image_cases E url path w Hurl)
    as (created & [(Hdl & Hpath & Hdisk)|[Hdl|[Hdl Hprint]]]).
  - split_and!.
    + by rewrite Hdl.
    + by rewrite Hdl.
    + rewrite Hdl. by eexists.
    + rewrite Htrue. tauto.
    + rewrite Hdl. intros _. apply elem_of_union. left. by apply elem_of_singleton.
    + done.
    + rewrite Hdl. intros p Hp. apply (Hother true p Hp).
  - split_and!.
    + by rewrite Hdl.
    + by rewrite Hdl.
    + rewrite Hdl. by eexists.
    + rewrite Htrue. tauto.
    + by rewrite Hdl.
    + done.
    + rewrite Hdl. intros p Hp. apply (Hother created p Hp).
  - split_and!.
    + rewrite Hdl. by intros e [= <-].
    + by rewrite Hdl.
    + by rewrite Hprint.
    + rewrite Htrue. tauto.
    + by rewrite Hdl.
    + done.
    + rewrite Hdl. intros p Hp. apply (Hother created p Hp).
Qed.

Lemma download_image_spec_witness :
  let E := sample_env service_text WriteOk media_accepted in
  (download_image E (lit "https://img.example.com/fed.png") (lit "t.png") fresh).1
  = Ok true
  ∧ lit "t.png"
    ∈ files (download_image E (lit "https://img.example.com/fed.png")
               (lit "t.png") fresh).2.
Proof.
  intros E.
  destruct (download_image_spec E (lit "https://img.example.com/fed.png")
              (lit "t.png") fresh) as (_ & _ & _ & Hiff & Hfile & _).
  assert (Hok : (download_image E (lit "https://img.example.com/fed.png")
                   (lit "t.png") fresh).1 = Ok true).
  { apply Hiff. split; [done|]. split; [by eexists|]. split; [done|].
    by vm_compute. }
  split; [exact Hok|exact (Hfile Hok)].
Defined.






(** * Further properties of the headline source *)

Lemma fetch_block_no_exit (E : env) (key : pystr) (results : list (pystr * pyval)) :
  no_exit (fetch_block E key results).
Proof.
  unfold fetch_block, try_except, raise_for_status.
  destruct (news E key) as [[]|status body]; simpl; try done.
  destruct ((400 <=? status)%Z && (status <? 600)%Z); simpl; [done|].
  destruct body as [data|]; simpl; [|done].
  destruct (json_limit E data) as [[]|]; simpl; try done.
  destruct data; simpl; try done.
  by destruct (default (PList []) (assoc (lit "articles") d)).
Qed.

Lemma dict_set_keys (k : pystr) (v : pyval) (d : list (pystr * pyval)) :
  k ∈ d.*1 → (dict_set k v d).*1 = d.*1.
Proof.
  induction d as [|[k' v'] d IH]; simpl; [by intros ?%elem_of_nil|].
  case_bool_decide as Hk; [by subst|].
  intros [?|Hin]%elem_of_cons; [done|]. simpl. f_equal. by apply IH.
Qed.

Lemma assoc_dict_set (k k' : pystr) (v : pyval) (d : list (pystr * pyval)) :
  assoc k (dict_set k' v d)
  = if bool_decide (k = k') then Some v else assoc k d.
Proof.
  induction d as [|[k'' v''] d IH]; simpl.
  - by repeat case_bool_decide.
  - repeat (case_bool_decide; simpl; subst; try done).
Qed.

(** X10: when [fetch_top_headlines] returns, the mapping has the three
    buckets in the order finance, business, tech, every bucket holds
    something that has a length, and the lengths add up to more than
    zero: an all-empty mapping is never returned. *)
Theorem fetch_returns_buckets (E : env) (results : list (pystr * pyval)) :
  fetch_top_headlines E = Ok results →
  results.*1 = [FINANCE; BUSINESS; TECH]
  ∧ ∃ n, total_len (results.*2) = Ok n ∧ (0 < n)%nat.
Proof.
  unfold fetch_top_headlines.
  set (init := [(FINANCE, PList []); (BUSINESS, PList []); (TECH, PList [])]).
  assert (Hkeys : ∀ k r r', fetch_block E k r = Ok r' → k ∈ r.*1 → r'.*1 = r.*1).
  { intros k r r' [->|(v & _ & _ & ->)]%fetch_block_shape Hk; [done|].
    by apply dict_set_keys. }
  destruct (fetch_block E FINANCE init) as [r1| |] eqn:H1; [|done..].
  cbn [mbind outcome_bind].
  destruct (fetch_block E BUSINESS r1) as [r2| |] eqn:H2; [|done..].
  cbn [mbind outcome_bind].
  destruct (fetch_block E TECH r2) as [r3| |] eqn:H3; [|done..].
  cbn [mbind outcome_bind].
  destruct (total_len r3.*2) as [n| |] eqn:Hn; [|done..].
  cbn [mbind outcome_bind].
  destruct (Nat.eqb_spec n 0) as [|Hpos]; [done|]. intros [= <-].
  apply Hkeys in H1; [|compute_done].
  apply Hkeys in H2; [|rewrite H1; compute_done].
  apply Hkeys in H3; [|rewrite H2, H1; compute_done].
  split; [by rewrite H3, H2, H1|]. exists n. split; [done|lia].
Qed.

Lemma fetch_returns_buckets_witness :
  ∃ results,
    fetch_top_headlines one_down_env = Ok results
    ∧ results.*1 = [FINANCE; BUSINESS; TECH]
    ∧ ∃ n, total_len (results.*2) = Ok n ∧ (0 < n)%nat.
Proof.
  eexists. split; [by vm_compute|].
  apply (fetch_returns_buckets one_down_env). by vm_compute.
Defined.

Lemma fetch_block_stores (E : env) (key : pystr) (status : Z)
    (d r r' : list (pystr * pyval)) :
  news E key = Response status (Some (PDict d)) →
  ((400 <=? status)%Z && (status <? 600)%Z) = false →
  fetch_block E key r = Ok r' →
  r' = dict_set key (default (PList []) (assoc (lit "articles") d)) r.
Proof.
  intros Hnews Hstatus. unfold fetch_block, try_except, raise_for_status.
  rewrite Hnews. simpl. rewrite Hstatus. simpl.
  destruct (json_limit E (PDict d)) as [[]|]; simpl; try done.
  destruct (default (PList []) (assoc (lit "articles") d)); simpl; try done;
    by intros [= <-].
Qed.

(** X11: what the news source sends under "articles" for a bucket reaches
    the returned mapping as it is, whatever its size: the function does not
    cut the list down to the page size it asked for. *)
Theorem fetch_passes_articles (E : env) (key : pystr) (status : Z)
    (d results : list (pystr * pyval)) :
  key ∈ [FINANCE; BUSINESS; TECH] →
  news E key = Response status (Some (PDict d)) →
  ¬ (400 ≤ status < 600)%Z →
  fetch_top_headlines E = Ok results →
  assoc key results = Some (default (PList []) (assoc (lit "articles") d)).
Proof.
  intros Hkey Hnews Hstatus.
  assert (Hst : ((400 <=? status)%Z && (status <? 600)%Z) = false).
  { destruct (Z.leb_spec 400 status), (Z.ltb_spec status 600); simpl; try done.
    lia. }
  set (v := default (PList []) (assoc (lit "articles") d)).
  assert (Hshape : ∀ k r r', fetch_block E k r = Ok r' →
                     r' = r ∨ ∃ v, r' = dict_set k v r).
  { intros k r r' [->|(v' & _ & _ & ->)]%fetch_block_shape; eauto. }
  unfold fetch_top_headlines.
  set (init := [(FINANCE, PList []); (BUSINESS, PList []); (TECH, PList [])]).
  destruct (fetch_block E FINANCE init) as [r1| |] eqn:H1; [|done..].
  cbn [mbind outcome_bind].
  destruct (fetch_block E BUSINESS r1) as [r2| |] eqn:H2; [|done..].
  cbn [mbind outcome_bind].
  destruct (fetch_block E TECH r2) as [r3| |] eqn:H3; [|done..].
  cbn [mbind outcome_bind].
  destruct (total_len r3.*2) as [n| |]; [|done..]. cbn [mbind outcome_bind].
  destruct (n =? 0)%nat; [done|]. intros [= <-].
  repeat (apply elem_of_cons in Hkey as [->|Hkey]);
    [| | |by apply elem_of_nil in Hkey].
  - apply (fetch_block_stores E FINANCE status d) in H1 as ->; [|done..].
    fold v.
    apply Hshape in H2 as [->|[v2 ->]]; apply Hshape in H3 as [->|[v3 ->]];
      reflexivity.
  - apply (fetch_block_stores E BUSINESS status d) in H2 as ->; [|done..].
    fold v.
    apply Hshape in H1 as [->|[v1 ->]]; apply Hshape in H3 as [->|[v3 ->]];
      reflexivity.
  - apply (fetch_block_stores E TECH status d) in H3 as ->; [|done..].
    fold v.
    apply Hshape in H1 as [->|[v1 ->]]; apply Hshape in H2 as [->|[v2 ->]];
      reflexivity.
Qed.

Lemma fetch_passes_articles_witness :
  ∃ results,
    fetch_top_headlines one_down_env = Ok results
    ∧ assoc FINANCE results = Some (PList [sample_article]).
Proof.
  eexists. split; [by vm_compute|].
  apply (fetch_passes_articles one_down_env FINANCE 200
           [(lit "articles", PList [sample_article])]).
  - compute_done.
  - reflexivity.
  - lia.
  - by vm_compute.
Defined.

Lemma fetch_block_malformed (E : env) (key : pystr) (r : list (pystr * pyval)) :
  bucket_malformed (news E key) = true →
  ∃ e, fetch_block E key r = Raised e.
Proof.
  unfold bucket_malformed, fetch_block, try_except, raise_for_status.
  destruct (news E key) as [|status [data|]]; try done. simpl.
  destruct ((400 <=? status)%Z && (status <? 600)%Z); simpl; [done|].
  destruct (json_limit E data) as [[]|]; simpl; try by eexists.
  destruct data as [ | | | | | |d]; simpl; try by eexists.
  destruct (default (PList []) (assoc (lit "articles") d)); simpl;
    try done; by eexists.
Qed.

(** X12: an answer that is JSON but not of the expected shape (not an
    object, or "articles" without a length) is not absorbed like a failed
    request: the exception leaves [fetch_top_headlines], and [main] ends
    with it before any article is processed, with nothing rewritten,
    downloaded, uploaded or posted, also for the buckets that answered
    well. *)
Theorem malformed_bucket_aborts (E : env) (key : pystr) :
  key ∈ [FINANCE; BUSINESS; TECH] →
  bucket_malformed (news E key) = true →
  ∃ e, fetch_top_headlines E = Raised e
       ∧ ∀ w, main E w = (Raised e, w).
Proof.
  intros Hkey Hbad.
  cut (∃ e, fetch_top_headlines E = Raised e).
  { intros [e He]. exists e. split; [done|]. intros w.
    unfold main. rewrite bind_M_unfold. cbn [lift]. by rewrite He. }
  unfold fetch_top_headlines.
  set (init := [(FINANCE, PList []); (BUSINESS, PList []); (TECH, PList [])]).
  pose proof (fetch_block_no_exit E FINANCE init) as N1.
  destruct (fetch_block E FINANCE init) as [r1|e1|] eqn:H1;
    cbn [mbind outcome_bind]; [|by eexists|done].
  pose proof (fetch_block_no_exit E BUSINESS r1) as N2.
  destruct (fetch_block E BUSINESS r1) as [r2|e2|] eqn:H2;
    cbn [mbind outcome_bind]; [|by eexists|done].
  pose proof (fetch_block_no_exit E TECH r2) as N3.
  destruct (fetch_block E TECH r2) as [r3|e3|] eqn:H3;
    cbn [mbind outcome_bind]; [|by eexists|done].
  exfalso.
  repeat (apply elem_of_cons in Hkey as [->|Hkey]);
    [| | |by apply elem_of_nil in Hkey].
  - destruct (fetch_block_malformed E FINANCE init Hbad). congruence.
  - destruct (fetch_block_malformed E BUSINESS r1 Hbad). congruence.
  - destruct (fetch_block_malformed E TECH r2 Hbad). congruence.
Qed.

Lemma malformed_bucket_aborts_witness :
  ∃ e, fetch_top_headlines
         (with_news one_down_env TECH (Response 200 (Some (PList [])))) = Raised e
       ∧ ∀ w, main (with_news one_down_env TECH (Response 200 (Some (PList [])))) w
              = (Raised e, w).
Proof.
  apply (malformed_bucket_aborts
           (with_news one_down_env TECH (Response 200 (Some (PList [])))) TECH).
  - compute_done.
  - reflexivity.
Defined.

(** * Further properties of the orchestrator *)

Lemma loop_body_frame (E : env) (category : pystr) (idx : nat) (article : pyval)
    (w : world) (p : pystr) :
  (∀ c i e, p ≠ temp_name c i e) →
  p ∈ files (loop_body E category idx article w).2 ↔ p ∈ files w.
Proof.
  intros Hp.
  article_cases E category idx article w; try done;
    try (destruct created'; [|done]);
    rewrite ?elem_of_difference, elem_of_union, !elem_of_singleton.
  1-3: split; [intros [?|?]; [by destruct (Hp category idx (temp_ext url'))|done]
              |by right].
  all: split; [intros [[?|?] _]; [by destruct (Hp category idx (temp_ext url'))|done]
              |intros ?; split; [by right|apply Hp]].
Qed.

Lemma for_each_frame {A} (body : A → M unit) (xs : list A) (w : world) (p : pystr) :
  (∀ x w, p ∈ files (body x w).2 ↔ p ∈ files w) →
  p ∈ files (for_each xs body w).2 ↔ p ∈ files w.
Proof.
  intros Hbody. revert w. induction xs as [|x xs IH]; intros w; [done|].
  simpl. rewrite bind_M_unfold. specialize (Hbody x w).
  destruct (body x w) as [[[]|e|code] w1]; simpl in *; [|done..].
  by rewrite IH.
Qed.

(** X13: [main] touches no file but its temporary ones: a file whose name
    is not of the form temp_image_<bucket>_<index><ext> is there after the
    run exactly when it was there before, however the run ends. *)
Theorem main_touches_temp_files_only (E : env) (w : world) (p : pystr) :
  (∀ category idx ext, p ≠ temp_name category idx ext) →
  p ∈ files (main E w).2 ↔ p ∈ files w.
Proof.
  intros Hp. unfold main. rewrite bind_M_unfold. cbn [lift].
  destruct (fetch_top_headlines E) as [headlines| |]; [|done..].
  apply for_each_frame. intros [category articles] w1.
  rewrite bind_M_unfold. cbn [lift].
  destruct (py_iter articles) as [items| |]; [|done..].
  apply for_each_frame. intros [idx article] w2.
  by apply loop_body_frame.
Qed.

Lemma main_touches_temp_files_only_witness :
  let E := sample_env service_text WriteOk media_accepted in
  lit "notes.txt" ∈ files (main E (World {[lit "notes.txt"]} [])).2.
Proof.
  intros E.
  apply (main_touches_temp_files_only E (World {[lit "notes.txt"]} [])
           (lit "notes.txt")).
  - intros category idx ext Heq. apply (f_equal head) in Heq. by compute in Heq.
  - compute_done.
Defined.

(** X14: nothing is tried twice: for one article there is at most one call
    of [rewrite_article], one of [download_image], one of
    [upload_local_image] and one of [create_wordpress_post], and at most
    six events in all. *)
Theorem no_stage_is_repeated (E : env) (category : pystr) (idx : nat)
    (article : pyval) (w : world) :
  (calls is_rewrite (emitted E category idx article w) ≤ 1)%nat
  ∧ (calls is_download (emitted E category idx article w) ≤ 1)%nat
  ∧ (calls is_upload (emitted E category idx article w) ≤ 1)%nat
  ∧ (calls is_post (emitted E category idx article w) ≤ 1)%nat
  ∧ (length (emitted E category idx article w) ≤ 6)%nat.
Proof.
  unfold emitted, calls.
  article_cases E category idx article w; try destruct created';
    simpl; repeat split; lia.
Qed.



Lemma lstrip_suffix (s : pystr) : lstrip s `suffix_of` s.
Proof.
  induction s as [|c s IH]; [done|]. simpl.
  destruct (is_space c); [by apply suffix_cons_r|done].
Qed.

Lemma lstrip_head (s : pystr) (c : N) :
  head (lstrip s) = Some c → is_space c = false.
Proof.
  induction s as [|x s IH]; [done|]. simpl.
  destruct (is_space x) eqn:Hx; [done|]. by intros [= <-].
Qed.

Lemma py_strip_ends (s : pystr) (c : N) :
  head (py_strip s) = Some c ∨ last (py_strip s) = Some c → is_space c = false.
Proof.
  unfold py_strip. intros [Hc|Hc].
  - set (t := lstrip s) in *.
    destruct (lstrip_suffix (reverse t)) as [k Hk].
    apply (f_equal reverse) in Hk.
    rewrite reverse_involutive, reverse_app in Hk.
    apply (lstrip_head s). fold t. rewrite Hk.
    destruct (reverse (lstrip (reverse t))); [done|]. by simpl in *.
  - rewrite last_reverse in Hc. by apply lstrip_head in Hc.
Qed.

(** X16: the text [rewrite_article] returns never begins or ends with
    white space: what the service sent is stripped, and the sentinel has
    none. *)
Theorem rewritten_text_is_stripped (E : env) (title : pystr)
    (description content : pyval) (w : world) (text : pystr) (c : N) :
  (rewrite_article E title description content w).1 = Ok text →
  head text = Some c ∨ last text = Some c →
  is_space c = false.
Proof.
  unfold rewrite_article. run_step.
  destruct (text_service E (trace w) title description content)
    as [|[|[ | | | |s| | ] choices]]; simpl; intros [= <-];
    try (intros [[= <-]|[= <-]]; reflexivity).
  apply py_strip_ends.
Qed.

Lemma rewritten_text_is_stripped_witness :
  (rewrite_article (sample_env service_text WriteOk media_accepted)
     (lit "Fed Raises Rates") PNone PNone fresh).1
  = Ok (lit "The Federal Reserve raised rates.")
  ∧ is_space 84 = false ∧ is_space 46 = false.
Proof.
  split; [by vm_compute|]. split.
  - apply (rewritten_text_is_stripped
             (sample_env service_text WriteOk media_accepted)
             (lit "Fed Raises Rates") PNone PNone fresh
             (lit "The Federal Reserve raised rates.") 84);
      [by vm_compute|by left].
  - apply (rewritten_text_is_stripped
             (sample_env service_text WriteOk media_accepted)
             (lit "Fed Raises Rates") PNone PNone fresh
             (lit "The Federal Reserve raised rates.") 46);
      [by vm_compute|by right].
Defined.

Lemma for_each_no_exit {A} (body : A → M unit) (xs : list A) (w : world) :
  (∀ x w, no_exit (body x w).1) → no_exit (for_each xs body w).1.
Proof.
  intros Hbody. revert w. induction xs as [|x xs IH]; intros w; [done|].
  simpl. rewrite bind_M_unfold. specialize (Hbody x w).
  destruct (body x w) as [[[]|e|code] w1]; simpl in *; [|done..].
  apply IH.
Qed.

Lemma loop_body_no_exit (E : env) (category : pystr) (idx : nat)
    (article : pyval) (w : world) :
  no_exit (loop_body E category idx article w).1.
Proof.
  article_cases E category idx article w; try done;
    try apply py_print_no_exit.
  destruct Hends as [->|[-> _]]; [apply py_print_no_exit|done].
Qed.

Lemma total_len_no_exit (vs : list pyval) : no_exit (total_len vs).
Proof.
  induction vs as [|v vs IH]; [done|]. simpl.
  apply no_exit_bind; [apply py_len_no_exit|]. intros n.
  apply no_exit_bind; [done|]. done.
Qed.

(** X17: the only way the run leaves through [sys.exit] is the exit of
    [fetch_top_headlines]: the code is 0 and nothing has been done by then.
    No article, whatever happens to it, ends the process that way. *)
Theorem exit_is_clean_and_early (E : env) (w : world) (code : Z) :
  (main E w).1 = Exited code →
  code = 0%Z
  ∧ (main E w).2 = w
  ∧ fetch_top_headlines E = Exited 0.
Proof.
  unfold main. rewrite bind_M_unfold. cbn [lift].
  destruct (fetch_top_headlines E) as [headlines|e|code'] eqn:Hfetch; simpl.
  - intros Hexit. exfalso.
    assert (Hno : no_exit
              (for_each headlines
                 (fun '(category, articles) =>
                    items ← lift (py_iter articles);
                    for_each (enumerate 1 items)
                      (fun '(idx, article) => loop_body E category idx article))
                 w).1).
    { apply for_each_no_exit. intros [category articles] w1.
      rewrite bind_M_unfold. cbn [lift].
      destruct articles; simpl; try done;
        apply for_each_no_exit; intros [idx article] w2;
        apply loop_body_no_exit. }
    by rewrite Hexit in Hno.
  - done.
  - intros [= ->].
    cut (code = 0%Z); [by intros ->|].
    revert Hfetch. unfold fetch_top_headlines.
    set (init := [(FINANCE, PList []); (BUSINESS, PList []); (TECH, PList [])]).
    pose proof (fetch_block_no_exit E FINANCE init) as N1.
    destruct (fetch_block E FINANCE init) as [r1| |]; cbn [mbind outcome_bind];
      [|done..].
    pose proof (fetch_block_no_exit E BUSINESS r1) as N2.
    destruct (fetch_block E BUSINESS r1) as [r2| |]; cbn [mbind outcome_bind];
      [|done..].
    pose proof (fetch_block_no_exit E TECH r2) as N3.
    destruct (fetch_block E TECH r2) as [r3| |]; cbn [mbind outcome_bind];
      [|done..].
    pose proof (total_len_no_exit r3.*2) as N4.
    destruct (total_len r3.*2) as [n| |]; cbn [mbind outcome_bind]; [|done..].
    destruct (n =? 0)%nat; [by intros [= <-]|done].
Qed.

Lemma exit_is_clean_and_early_witness :
  (main silent_env fresh).1 = Exited 0
  ∧ (main silent_env fresh).2 = fresh.
Proof.
  assert (H : (main silent_env fresh).1 = Exited 0) by by vm_compute.
  split; [exact H|].
  by destruct (exit_is_clean_and_early silent_env fresh 0 H) as (_ & ? & _).
Defined.

(** X18: after a download that returned [False] nothing more is done for
    the article: no upload, no removal, no post.  The loop body ends as the
    print of the skip does (line 311): normally, and the run goes on, when
    the cleaned title can be printed, and with [UnicodeEncodeError]
    otherwise. *)
Theorem failed_download_skips (E : env) (category : pystr) (idx : nat)
    (article : pyval) (w : world) (url path : pystr) :
  EvDownload url path false ∈ emitted E category idx article w →
  calls is_upload (emitted E category idx article w) = 0%nat
  ∧ calls is_post (emitted E category idx article w) = 0%nat
  ∧ removals path (emitted E category idx article w) = 0%nat
  ∧ ∃ t d c,
      article_fields article = Ok (t, d, c, PStr url)
      ∧ (loop_body E category idx article w).1
        = if printable_str t then Ok tt else Raised UnicodeEncodeError.
Proof.
  unfold emitted, calls.
  article_cases E category idx article w; intros Hin;
    try (by apply elem_of_nil in Hin); try (no_such_event Hin);
    try (destruct created'; no_such_event Hin).
  assert (url' = url) as ->.
  { destruct created';
      repeat (apply elem_of_cons in Hin as [Heq|Hin]; [try done|]);
      try (by apply elem_of_nil in Hin); by injection Heq. }
  split_and!; try (destruct created'; simpl; done).
  exists t', d', c'. split; [done|]. apply py_print_str.
Qed.

Lemma failed_download_skips_witness :
  let E := with_image (sample_env service_text WriteOk media_accepted)
             (Transport TimedOut) in
  calls is_upload (emitted E BUSINESS 1 sample_article fresh) = 0%nat
  ∧ calls is_post (emitted E BUSINESS 1 sample_article fresh) = 0%nat
  ∧ removals (lit "temp_image_business_1.png")
      (emitted E BUSINESS 1 sample_article fresh) = 0%nat
  ∧ (loop_body E BUSINESS 1 sample_article fresh).1 = Ok tt.
Proof.
  intros E.
  destruct (failed_download_skips E BUSINESS 1 sample_article fresh
              (lit "https://img.example.com/fed.png")
              (lit "temp_image_business_1.png"))
    as (Hup & Hpost & Hrm & t & d & c & Hf & Hends).
  { apply (list_elem_of_lookup_2 _ 1%nat). by vm_compute. }
  split; [exact Hup|]. split; [exact Hpost|]. split; [exact Hrm|].
  rewrite Hends. injection Hf as <- _ _. reflexivity.
Defined.

Lemma py_print_raised (values : list pyval) (err : exn) :
  py_print values = Raised err →
  err = UnicodeEncodeError ∧ forallb printable values = false.
Proof.
  unfold py_print. destruct (forallb printable values); [done|].
  by intros [= <-].
Qed.



(** X20: an article that cannot be read stops the whole run: when its
    fields raise (the record is no dict: [AttributeError]; its title is
    truthy but no string: [TypeError]) the loop over the bucket ends with
    that exception, nothing is done for the article, and the articles
    behind it are not looked at. *)
Theorem unreadable_article_stops_run (E : env) (category : pystr) (idx : nat)
    (article : pyval) (rest : list (nat * pyval)) (w : world) (e : exn) :
  article_fields article = Raised e →
  for_each ((idx, article) :: rest)
    (fun '(i, a) => loop_body E category i a) w
  = (Raised e, w)
  ∧ ((∀ items, article ≠ PDict items) ∧ e = AttributeError
     ∨ (∃ items v, article = PDict items
                   ∧ assoc (lit "title") items = Some v
                   ∧ truthy v = true
                   ∧ (∀ s, v ≠ PStr s)
                   ∧ e = TypeError)).
Proof.
  intros Hfields. split.
  - simpl. rewrite bind_M_unfold.
    pose proof (loop_body_run E category idx article w) as Hrun.
    destruct (loop_body E category idx article w) as [o w'].
    simpl in Hrun. destruct Hrun; congruence.
  - revert Hfields. unfold article_fields.
    destruct article as [ | | | | | |items]; simpl;
      try (intros [= <-]; left; by split).
    intros H. right.
    destruct (assoc (lit "title") items) as [v|] eqn:Hv; simpl in *;
      [|done].
    unfold py_or in H. destruct (truthy v) eqn:Htruthy; simpl in H; [|done].
    exists items, v. destruct v; simpl in H; try done;
      injection H as <-; by repeat split.
Qed.

Lemma unreadable_article_stops_run_witness :
  let E := sample_env service_text WriteOk media_accepted in
  for_each [(1%nat, PDict [(lit "title", PInt 7)]); (2%nat, sample_article)]
    (fun '(i, a) => loop_body E BUSINESS i a) fresh
  = (Raised TypeError, fresh).
Proof.
  intros E.
  by destruct (unreadable_article_stops_run E BUSINESS 1
                 (PDict [(lit "title", PInt 7)]) [(2%nat, sample_article)]
                 fresh TypeError eq_refl) as [H _].
Defined.

(** When the host answers 200, the disk takes the file and its name can
    be printed, the download returns [True]. *)
Lemma download_image_succeeds (E : env) (url path : pystr) (w : world) :
  url ≠ [] →
  (∃ body, image_get E (trace w) url = Response 200 body) →
  disk E (trace w) path = WriteOk →
  printable_str path = true →
  (download_image E url path w).1 = Ok true.
Proof.
  intros Hurl [body Hget] Hdisk Hpath. unfold download_image.
  rewrite bool_decide_eq_false_2 by done.
  rewrite bind_M_unfold. unfold try_exceptM. run_step.
  rewrite Hget. simpl. rewrite bind_M_unfold. unfold open_write.
  rewrite Hdisk. rewrite bind_M_unfold. cbn [lift].
  by rewrite py_print_str, Hpath.
Qed.

(** A text written in the source, and the decimal digits of a number, can
    be printed; so can the name of the temporary file when the bucket's
    name and the URL can. *)
Lemma printable_lit (s : string) : printable_str (lit s) = true.
Proof.
  induction s as [|a s IH]; [done|].
  change (lit (String a s)) with (N_of_ascii a :: lit s).
  cbn [printable_str forallb]. fold (printable_str (lit s)). rewrite IH.
  rewrite andb_true_r. unfold is_surrogate.
  pose proof (N_ascii_bounded a).
  destruct (N.leb_spec 55296 (N_of_ascii a)); [lia|done].
Qed.

Lemma printable_app (a b : pystr) :
  printable_str (a ++ b) = printable_str a && printable_str b.
Proof. apply forallb_app. Qed.

Lemma printable_drop (n : nat) (s : pystr) :
  printable_str s = true → printable_str (drop n s) = true.
Proof.
  intros Hs. rewrite <- (take_drop n s) in Hs.
  rewrite printable_app in Hs. by apply andb_true_iff in Hs as [_ ?].
Qed.

Lemma printable_temp_name (category : pystr) (idx : nat) (url : pystr) :
  printable_str category = true →
  printable_str url = true →
  printable_str (temp_name category idx (temp_ext url)) = true.
Proof.
  intros Hc Hu. unfold temp_name.
  rewrite !printable_app, !printable_lit, Hc. simpl.
  unfold temp_ext.
  destruct (bool_decide _ || _); [apply printable_lit|].
  unfold splitext. destruct (_ <? _)%Z; [|done].
  destruct (existsb _ _); [|done]. by apply printable_drop.
Qed.



(** * Further properties of the MIME type *)

Lemma rfind_from_fmap (f : N → N) (c : N) (i : Z) (s : pystr) :
  (∀ x, (f x =? c) = (x =? c)) →
  rfind_from i c (f <$> s) = rfind_from i c s.
Proof.
  intros Hf. revert i. induction s as [|x s IH]; intros i; [done|].
  cbn [fmap list_fmap rfind_from]. fold (fmap f s). by rewrite IH, Hf.
Qed.

Lemma existsb_fmap (f : N → N) (g : N → bool) (s : pystr) :
  (∀ x, g (f x) = g x) → existsb g (f <$> s) = existsb g s.
Proof.
  intros Hg. induction s as [|x s IH]; [done|].
  cbn [fmap list_fmap existsb]. fold (fmap f s). by rewrite IH, Hg.
Qed.

Lemma lower_char_keeps (c x : N) :
  (c < 65 ∨ 122 < c) →
  ((if (65 <=? x) && (x <=? 90) then x + 32 else x) =? c) = (x =? c).
Proof.
  intros Hc.
  destruct (N.leb_spec 65 x), (N.leb_spec x 90); simpl; try done.
  destruct (N.eqb_spec (x + 32) c), (N.eqb_spec x c); try done; lia.
Qed.

Lemma splitext_lower (p : pystr) :
  (splitext (lower p)).2 = lower (splitext p).2.
Proof.
  unfold splitext, lower, rfind.
  rewrite !rfind_from_fmap
    by (intros x; apply lower_char_keeps; unfold SLASH, DOT; lia).
  destruct (_ <? _)%Z; [|done].
  unfold slice. rewrite <- fmap_drop, <- fmap_take.
  rewrite existsb_fmap.
  - destruct (existsb _ _); [|done]. simpl. by rewrite fmap_drop.
  - intros x. f_equal. apply lower_char_keeps. unfold DOT. lia.
Qed.

Lemma lower_lower (s : pystr) : lower (lower s) = lower s.
Proof.
  unfold lower. rewrite <- list_fmap_compose. apply list_fmap_ext.
  intros _ x _. simpl.
  destruct ((65 <=? x) && (x <=? 90)) eqn:Hx; [|by rewrite Hx].
  apply andb_true_iff in Hx as [H1%N.leb_le H2%N.leb_le].
  assert ((x + 32 <=? 90) = false) as -> by (apply N.leb_gt; lia).
  by rewrite andb_false_r.
Qed.

(** X22: the MIME type sent with the upload is one of "image/jpeg",
    "image/png", "image/gif" and "application/octet-stream", and it does
    not depend on the case of the letters of the file name. *)
Theorem content_type_ignores_case (filename : pystr) :
  content_type_of (lower filename) = content_type_of filename
  ∧ (content_type_of filename = lit "image/jpeg"
     ∨ content_type_of filename = lit "image/png"
     ∨ content_type_of filename = lit "image/gif"
     ∨ content_type_of filename = lit "application/octet-stream").
Proof.
  split.
  - unfold content_type_of. by rewrite splitext_lower, lower_lower.
  - unfold content_type_of. repeat case_bool_decide; simpl; auto.
Qed.
